(** * Verification of [scripts/log-writer.py]

    A shallow embedding of the log writer: the payload builder, the insertion
    wrapper, the emission loop and the CLI entry point, followed by the
    properties the specification states about them.

    The program is effectful: it reads the process environment, draws random
    values, calls a remote table store, prints, sleeps, and can be interrupted
    by the operator.  All of that is kept in an explicit [World] that every
    operation threads through; Python exceptions are an outcome of the
    computation, and the unbounded [while] loop runs on fuel. *)

From Stdlib Require Import ZArith QArith String List Bool Lia.
From stdpp Require Import gmap strings list pretty.
Import ListNotations.

Local Open Scope string_scope.
Local Open Scope list_scope.

(** ** Exceptions *)

(** The exception classes the program meets.  [LibraryError] stands for any
    subclass of [Exception] raised by third-party code (the table-store client,
    the HTTP layer below it).  [KeyboardInterrupt] and [SystemExit] derive from
    [BaseException] only, so an [except Exception] clause lets them through. *)
Inductive exn_class : Type :=
| RuntimeError
| ValueError
| IndexError
| OverflowError
| LibraryError (name : string)
| SystemExit
| KeyboardInterrupt.

Definition is_Exception (c : exn_class) : bool :=
  match c with
  | SystemExit | KeyboardInterrupt => false
  | _ => true
  end.

(** An exception instance: its class and the text [str(e)] gives; [ExnFrom]
    is an instance raised with [raise ... from cause]. *)
Inductive exn : Type :=
| Exn (cls : exn_class) (text : string)
| ExnFrom (cls : exn_class) (text : string) (cause : exn).

Definition exn_cls (e : exn) : exn_class :=
  match e with
  | Exn c _ | ExnFrom c _ _ => c
  end.

Definition exn_str (e : exn) : string :=
  match e with
  | Exn _ s | ExnFrom _ s _ => s
  end.

Definition exn_cause (e : exn) : option exn :=
  match e with
  | Exn _ _ => None
  | ExnFrom _ _ c => Some c
  end.

(** ** Data model *)

Record Metadata : Type := mkMetadata {
  run_id : string;
  sequence : Z;
  execution_ms : Z;
}.

Record Payload : Type := mkPayload {
  script_name : string;
  level : string;
  message : string;
  metadata : Metadata;
}.

(** A Python float, as far as the program can tell floats apart: it only
    hands the interval to [time.sleep].  A finite float is the rational it
    denotes; [float] also parses "inf", "-inf" and "nan". *)
Inductive pyfloat : Type :=
| Finite (q : Q)
| Infinity (negative : bool)
| NaN.

Coercion Finite : Q >-> pyfloat.
Bind Scope Q_scope with pyfloat.

(** The namespace [argparse] hands back. *)
Record Namespace : Type := mkNamespace {
  ns_script : string;
  ns_count : Z;
  ns_interval : pyfloat;
  ns_follow : bool;
}.

(** What the program does to the outside, in the order it does it.  An
    insertion attempt is logged with the reply of the table store. *)
Inductive Event : Type :=
| EvInsert (table : string) (row : Payload) (reply : option exn)
| EvPrint (line : string)
| EvSleep (secs : pyfloat).

(** The insertion capability: given everything that happened so far, a table
    name and a row, it accepts ([None]) or raises. *)
Record Client : Type := mkClient {
  respond : list Event -> string -> Payload -> option exn;
}.

(** ** The world *)

Record World : Type := mkWorld {
  argv : option Namespace;            (* the parsed command line, if it parses *)
  environ : gmap string string;       (* os.environ *)
  connect : string -> string -> Client + exn;  (* supabase.create_client *)
  uuid_pool : nat -> string;          (* the identifiers uuid4 will hand out *)
  uuid_taken : nat;
  entropy : nat -> nat;               (* the raw draws behind the random module *)
  entropy_used : nat;
  sigint : option nat;                (* operations left before Ctrl-C lands *)
  trace : list Event;
}.

Definition set_sigint (s : option nat) (w : World) : World :=
  mkWorld (argv w) (environ w) (connect w) (uuid_pool w) (uuid_taken w)
          (entropy w) (entropy_used w) s (trace w).

Definition take_uuid (w : World) : World :=
  mkWorld (argv w) (environ w) (connect w) (uuid_pool w) (S (uuid_taken w))
          (entropy w) (entropy_used w) (sigint w) (trace w).

Definition take_entropy (w : World) : World :=
  mkWorld (argv w) (environ w) (connect w) (uuid_pool w) (uuid_taken w)
          (entropy w) (S (entropy_used w)) (sigint w) (trace w).

Definition log_event (e : Event) (w : World) : World :=
  mkWorld (argv w) (environ w) (connect w) (uuid_pool w) (uuid_taken w)
          (entropy w) (entropy_used w) (sigint w) (trace w ++ [e]).

(** ** The monad of Python computations *)

Inductive outcome (A : Type) : Type :=
| Return (a : A)
| Raise (e : exn)
| Unfinished.            (* the fuel ran out while the loop was still going *)

Arguments Return {A} a.
Arguments Raise {A} e.
Arguments Unfinished {A}.

Definition Py (A : Type) : Type := World -> World * outcome A.

Definition ret {A} (a : A) : Py A := fun w => (w, Return a).

Definition raise {A} (e : exn) : Py A := fun w => (w, Raise e).

Definition bind {A B} (m : Py A) (k : A -> Py B) : Py B :=
  fun w =>
    match m w with
    | (w', Return a) => k a w'
    | (w', Raise e) => (w', Raise e)
    | (w', Unfinished) => (w', Unfinished)
    end.

(** [try: m  except <classes accepted by catches> as e: handler e] *)
Definition try_except {A} (m : Py A) (catches : exn_class -> bool)
    (handler : exn -> Py A) : Py A :=
  fun w =>
    match m w with
    | (w', Raise e) =>
        if catches (exn_cls e) then handler e w' else (w', Raise e)
    | r => r
    end.

Declare Scope py_scope.
Delimit Scope py_scope with py.
Notation "'let*' x ':=' m 'in' k" := (bind m (fun x => k))
  (at level 10, x name, m at level 100, k at level 200) : py_scope.
Notation "m '>>>' k" := (bind m (fun _ => k))
  (at level 90, right associativity) : py_scope.
Local Open Scope py_scope.

(** ** Primitive operations *)

(** Every call into the runtime is a point where a pending Ctrl-C can be
    delivered: the countdown in [sigint] reaches zero and the call raises
    [KeyboardInterrupt] instead of doing its work. *)
Definition tick : Py unit :=
  fun w =>
    match sigint w with
    | None => (w, Return tt)
    | Some (S n) => (set_sigint (Some n) w, Return tt)
    | Some O => (set_sigint None w, Raise (Exn KeyboardInterrupt ""))
    end.

Definition emit (e : Event) : Py unit :=
  fun w => (log_event e w, Return tt).

(** [os.getenv(name)] *)
Definition os_getenv (name : string) : Py (option string) :=
  tick >>> fun w => (w, Return (environ w !! name)).

(** [str(uuid.uuid4())] *)
Definition uuid4_str : Py string :=
  tick >>> fun w => (take_uuid w, Return (uuid_pool w (uuid_taken w))).

Definition draw : Py nat :=
  fun w => (take_entropy w, Return (entropy w (entropy_used w))).

(** [random.choice(seq)]: some element of a non-empty sequence. *)
Definition random_choice (seq : list string) : Py string :=
  match seq with
  | [] => raise (Exn IndexError "Cannot choose from an empty sequence")
  | d :: _ =>
      tick >>>
      let* r := draw in
      ret (nth (r mod length seq) seq d)
  end.

(** [random.randint(a, b)]: some integer of the closed range [a..b]. *)
Definition random_randint (a b : Z) : Py Z :=
  if (b <? a)%Z
  then raise (Exn ValueError "empty range for randrange()")
  else
    tick >>>
    let* r := draw in
    ret (a + Z.of_nat r mod (b - a + 1))%Z.

(** [print(line)] *)
Definition print (line : string) : Py unit :=
  tick >>> emit (EvPrint line).

(** [time.sleep] first converts its argument to a signed 64-bit count of
    nanoseconds and raises [OverflowError] when the count does not fit.  The
    count is formed in double precision, so on the negative side lengths down
    to 1024 ns below -2^63 ns still convert (to -2^63); on the positive side
    every length up to 2^63 - 1 ns converts, and the one float between that
    and 2^63 + 1024 ns, where the C conversion is not defined, is counted
    with the lengths that do not fit. *)
Definition MAX_SLEEP : Q := 9223372036854775807 # 1000000000.
Definition MIN_SLEEP : Q := -9223372036854776832 # 1000000000.

(** What [time.sleep(secs)] raises before any waiting, if it refuses [secs]:
    [ValueError] for NaN, [OverflowError] for a length whose nanoseconds do
    not fit (the infinities included), [ValueError] for a negative length. *)
Definition sleep_rejection (secs : pyfloat) : option exn :=
  match secs with
  | NaN => Some (Exn ValueError "Invalid value NaN (not a number)")
  | Infinity _ =>
      Some (Exn OverflowError "timestamp too large to convert to C _PyTime_t")
  | Finite q =>
      if negb (Qle_bool MIN_SLEEP q && Qle_bool q MAX_SLEEP)
      then Some (Exn OverflowError "timestamp too large to convert to C _PyTime_t")
      else if negb (Qle_bool 0 q)
      then Some (Exn ValueError "sleep length must be non-negative")
      else None
  end.

(** [time.sleep(secs)]: the argument is checked first; an interrupt that
    arrives during the wait ends it. *)
Definition time_sleep (secs : pyfloat) : Py unit :=
  match sleep_rejection secs with
  | Some e => raise e
  | None => tick >>> emit (EvSleep secs)
  end.

(** [supabase.create_client(url, key)] *)
Definition create_client (url key : string) : Py Client :=
  tick >>>
  fun w =>
    match connect w url key with
    | inl c => (w, Return c)
    | inr e => (w, Raise e)
    end.

(** [client.table(name).insert(row).execute()] *)
Definition table_insert_execute (client : Client) (name : string)
    (row : Payload) : Py unit :=
  tick >>>
  fun w =>
    let reply := respond client (trace w) name row in
    (log_event (EvInsert name row reply) w,
     match reply with
     | None => Return tt
     | Some e => Raise e
     end).

(** Python truthiness of a string and of an optional string. *)
Definition str_truthy (s : string) : bool :=
  match s with
  | EmptyString => false
  | String _ _ => true
  end.

Definition opt_truthy (o : option string) : bool :=
  match o with
  | None => false
  | Some s => str_truthy s
  end.

(** [str(n)] for an integer. *)
Definition str_int (n : Z) : string := pretty n.

(** ** The program *)

Definition LOG_LEVELS : list string := ["debug"; "info"; "warning"; "error"].

Definition LOG_MESSAGES : list string :=
  [ "Starting scheduled task";
    "Loading configuration";
    "Fetching upstream payload";
    "Transforming dataset";
    "Completed batch successfully";
    "Retrying after transient failure";
    "Writing output artifacts";
    "Heartbeat check" ].

Definition config_error : exn :=
  Exn RuntimeError "Missing SUPABASE_URL or SUPABASE_SERVICE_ROLE_KEY in env.".

Definition load_config : Py (string * string) :=
  let* url := os_getenv "SUPABASE_URL" in
  let* key := os_getenv "SUPABASE_SERVICE_ROLE_KEY" in
  if negb (opt_truthy url) || negb (opt_truthy key)
  then raise config_error
  else ret (default "" url, default "" key).

Definition build_log_payload (script_name : string) (run_id : string)
    (sequence : Z) : Py Payload :=
  if negb (str_truthy script_name)
  then raise (Exn ValueError "script_name is required")
  else
    let* level := random_choice LOG_LEVELS in
    let* message := random_choice LOG_MESSAGES in
    let* ms := random_randint 45 1400 in
    let metadata := mkMetadata run_id sequence ms in
    ret (mkPayload script_name level message metadata).

Definition insert_log (client : Client) (payload : Payload) : Py unit :=
  try_except (table_insert_execute client "script_logs" payload)
    is_Exception
    (fun error =>
       raise (ExnFrom RuntimeError ("Insert failed: " +:+ exn_str error) error)).

(** The [while follow or sequence <= count] loop.  The test comes first, so
    fuel is only spent on iterations that really run. *)
Fixpoint writer_loop (fuel : nat) (client : Client) (script_name : string)
    (count : Z) (interval : pyfloat) (follow : bool) (run_id : string)
    (sequence : Z) : Py unit :=
  if follow || (sequence <=? count)%Z
  then
    match fuel with
    | O => fun w => (w, Unfinished)
    | S fuel' =>
        let* payload := build_log_payload script_name run_id sequence in
        insert_log client payload >>>
        print ("Inserted log " +:+ str_int sequence +:+ " for " +:+ script_name) >>>
        let sequence := (sequence + 1)%Z in
        time_sleep interval >>>
        writer_loop fuel' client script_name count interval follow run_id
                    sequence
    end
  else ret tt.

Definition run_writer (fuel : nat) (client : Client) (script_name : string)
    (count : Z) (interval : pyfloat) (follow : bool) : Py unit :=
  let* run_id := uuid4_str in
  writer_loop fuel client script_name count interval follow run_id 1.

(** [argparse] is not modelled: the world either holds the namespace the
    command line parses to, or the parser exits. *)
Definition parse_args : Py Namespace :=
  fun w =>
    match argv w with
    | Some ns => (w, Return ns)
    | None => (w, Raise (Exn SystemExit "2"))
    end.

Definition default_namespace : Namespace :=
  mkNamespace "demo-script" 20 1 false.

Definition is_KeyboardInterrupt (c : exn_class) : bool :=
  match c with
  | KeyboardInterrupt => true
  | _ => false
  end.

Definition main (fuel : nat) : Py unit :=
  let* args := parse_args in
  let* cfg := load_config in
  let* client := create_client (fst cfg) (snd cfg) in
  try_except
    (run_writer fuel client (ns_script args) (ns_count args)
                (ns_interval args) (ns_follow args))
    is_KeyboardInterrupt
    (fun _ => print "Log writer stopped.").


(** ** Vocabulary of the specification *)

(** The events a computation added to the trace of the world it started in. *)
Definition new_events (w w' : World) : list Event :=
  drop (length (trace w)) (trace w').

(** The rows handed to the insertion capability, in order. *)
Fixpoint inserted (evs : list Event) : list Payload :=
  match evs with
  | [] => []
  | EvInsert _ row _ :: rest => row :: inserted rest
  | _ :: rest => inserted rest
  end.

(** No pending interrupt lands within the next [k] runtime calls. *)
Definition passes (k : nat) (w : World) : Prop :=
  match sigint w with
  | None => True
  | Some m => k <= m
  end.

Definition countdown (k : nat) (s : option nat) : option nat :=
  match s with
  | None => None
  | Some m => Some (m - k)
  end.

(** The insertion capability never refuses. *)
Definition always_accepts (client : Client) : Prop :=
  forall history name row, respond client history name row = None.

(** What [insert_log] raises when the capability raised [e]. *)
Definition insert_error (e : exn) : exn :=
  if is_Exception (exn_cls e)
  then ExnFrom RuntimeError ("Insert failed: " +:+ exn_str e) e
  else e.

Definition confirmation (sequence : Z) (script_name : string) : string :=
  "Inserted log " +:+ str_int sequence +:+ " for " +:+ script_name.

(** A record as [build_log_payload script_name run_id sequence] makes them. *)
Record built (script : string) (rid : string) (sq : Z) (p : Payload) : Prop := {
  built_script : script_name p = script;
  built_run_id : run_id (metadata p) = rid;
  built_sequence : sequence (metadata p) = sq;
  built_level : In (level p) LOG_LEVELS;
  built_message : In (message p) LOG_MESSAGES;
  built_ms : (45 <= execution_ms (metadata p) <= 1400)%Z;
}.

(** One pass through the body of the loop. *)
Definition iteration (client : Client) (script_name : string)
    (interval : pyfloat)
    (run_id : string) (sequence : Z) : Py unit :=
  let* payload := build_log_payload script_name run_id sequence in
  insert_log client payload >>>
  print ("Inserted log " +:+ str_int sequence +:+ " for " +:+ script_name) >>>
  time_sleep interval.

(** The events of a complete iteration that inserted [p]. *)
Definition iteration_events (script : string) (interval : pyfloat)
    (p : Payload)
    : list Event :=
  [ EvInsert "script_logs" p None;
    EvPrint (confirmation (sequence (metadata p)) script);
    EvSleep interval ].

(** Every way one iteration can go, as the events it adds after the history
    [h] and the outcome it ends with. *)
Inductive iter_shape (client : Client) (script rid : string)
    (interval : pyfloat)
    (h : list Event) (sq : Z) : list Event -> outcome unit -> Prop :=
| shape_complete p :
    built script rid sq p ->
    respond client h "script_logs" p = None ->
    iter_shape client script rid interval h sq
      (iteration_events script interval p) (Return tt)
| shape_nothing e :
    iter_shape client script rid interval h sq [] (Raise e)
| shape_refused p e :
    built script rid sq p ->
    respond client h "script_logs" p = Some e ->
    iter_shape client script rid interval h sq
      [EvInsert "script_logs" p (Some e)] (Raise (insert_error e))
| shape_unconfirmed p e :
    built script rid sq p ->
    respond client h "script_logs" p = None ->
    iter_shape client script rid interval h sq
      [EvInsert "script_logs" p None] (Raise e)
| shape_unslept p e :
    built script rid sq p ->
    respond client h "script_logs" p = None ->
    iter_shape client script rid interval h sq
      [EvInsert "script_logs" p None; EvPrint (confirmation sq script)]
      (Raise e).

(** Every way the loop can go from sequence number [sq] on. *)
Inductive run_shape (client : Client) (script rid : string)
    (interval : pyfloat)
    : list Event -> Z -> list Event -> outcome unit -> Prop :=
| run_stop h sq :
    run_shape client script rid interval h sq [] (Return tt)
| run_out h sq :
    run_shape client script rid interval h sq [] Unfinished
| run_abort h sq d e :
    iter_shape client script rid interval h sq d (Raise e) ->
    run_shape client script rid interval h sq d (Raise e)
| run_more h sq d1 d2 o :
    iter_shape client script rid interval h sq d1 (Return tt) ->
    run_shape client script rid interval (h ++ d1) (sq + 1) d2 o ->
    run_shape client script rid interval h sq (d1 ++ d2) o.

(** Whether [needle] occurs in [hay]. *)
Fixpoint occurs_in (needle hay : string) : bool :=
  String.prefix needle hay ||
  match hay with
  | EmptyString => false
  | String _ rest => occurs_in needle rest
  end.

(** Consecutively numbered records of one run, starting at [sq]. *)
Fixpoint numbered (script rid : string) (sq : Z) (rows : list Payload) : Prop :=
  match rows with
  | [] => True
  | p :: rest => built script rid sq p /\ numbered script rid (sq + 1) rest
  end.

(** The iterations a run performs on [fuel] when nothing disturbs it. *)
Definition iterations_planned (fuel : nat) (count : Z) (follow : bool) : nat :=
  if follow then fuel else Z.to_nat count.

(** Both connection settings are present and non-empty. *)
Definition configured (env : gmap string string) (url key : string) : Prop :=
  env !! "SUPABASE_URL" = Some url /\
  env !! "SUPABASE_SERVICE_ROLE_KEY" = Some key /\
  url <> "" /\ key <> "".

(** ** Sample worlds *)

Definition accepting_client : Client := mkClient (fun _ _ _ => None).

(** A store that is down from the third attempt on. *)
Definition flaky_client : Client :=
  mkClient (fun history _ _ =>
              if (2 <=? length (inserted history))%nat
              then Some (Exn (LibraryError "APIError") "connection refused")
              else None).

Definition sample_environ : gmap string string :=
  <["SUPABASE_URL" := "http://localhost:54321"]>
    (<["SUPABASE_SERVICE_ROLE_KEY" := "service-role"]> ∅).

Definition sample_world (ns : Namespace) (client : Client)
    (env : gmap string string) (interrupt : option nat) : World :=
  mkWorld (Some ns) env (fun _ _ => inl client)
          (fun n => "run-" +:+ pretty n) 0
          (fun n => 7 * n + 3) 0 interrupt [].

Definition quiet_world : World :=
  sample_world default_namespace accepting_client sample_environ None.

(** ** Vocabulary of the further properties *)

(** The lines printed, the delays slept and the errors of the refused
    insertion attempts, each in order. *)
Fixpoint printed (evs : list Event) : list string :=
  match evs with
  | [] => []
  | EvPrint line :: rest => line :: printed rest
  | _ :: rest => printed rest
  end.

Fixpoint slept (evs : list Event) : list pyfloat :=
  match evs with
  | [] => []
  | EvSleep secs :: rest => secs :: slept rest
  | _ :: rest => slept rest
  end.

Fixpoint refused (evs : list Event) : list exn :=
  match evs with
  | [] => []
  | EvInsert _ _ (Some e) :: rest => e :: refused rest
  | _ :: rest => refused rest
  end.

(** What an event of a run for [script] and [interval] looks like. *)
Definition writer_event (script : string) (interval : pyfloat) (ev : Event)
    : Prop :=
  match ev with
  | EvInsert table row _ =>
      table = "script_logs" /\ script_name row = script /\
      In (level row) LOG_LEVELS /\ In (message row) LOG_MESSAGES /\
      (45 <= execution_ms (metadata row) <= 1400)%Z
  | EvPrint line =>
      exists k, (1 <= k)%Z /\
        line = "Inserted log " +:+ str_int k +:+ " for " +:+ script
  | EvSleep secs => secs = interval
  end.

(** A length [time.sleep] waits for: finite, not negative, and no longer
    than [MAX_SLEEP] seconds (about 292 years). *)
Definition sleepable (secs : pyfloat) : Prop :=
  match secs with
  | Finite q => (0 <= q)%Q /\ (q <= MAX_SLEEP)%Q
  | _ => False
  end.

(** The insertion capability raises errors of its own only: no
    [KeyboardInterrupt] comes out of it unless the operator sent one. *)
Definition never_interrupts (client : Client) : Prop :=
  forall history name row e,
    respond client history name row = Some e ->
    is_KeyboardInterrupt (exn_cls e) = false.

(** A world in which the table store cannot be reached. *)
Definition unreachable_store : exn :=
  Exn (LibraryError "SupabaseException") "Invalid URL".

Definition offline_world : World :=
  mkWorld (Some default_namespace) sample_environ
          (fun _ _ => inr unreachable_store)
          (fun n => "run-" +:+ pretty n) 0
          (fun n => 7 * n + 3) 0 None [].

(** * Properties *)

(** ** The monad *)

(** The laws are stated at a world, which spares functional extensionality. *)

Lemma bind_assoc_at {A B C} (m : Py A) (f : A -> Py B) (g : B -> Py C) w :
  bind (bind m f) g w = bind m (fun a => bind (f a) g) w.
Proof.
  unfold bind. destruct (m w) as [w1 [a | e |]]; reflexivity.
Qed.

Lemma bind_return_at {A B} (m : Py A) (k : A -> Py B) w w1 a :
  m w = (w1, Return a) -> bind m k w = k a w1.
Proof. intros H. unfold bind. rewrite H. reflexivity. Qed.

Lemma bind_raise_at {A B} (m : Py A) (k : A -> Py B) w w1 e :
  m w = (w1, Raise e) -> bind m k w = (w1, Raise e).
Proof. intros H. unfold bind. rewrite H. reflexivity. Qed.

Lemma bind_ext_at {A B} (m : Py A) (k k' : A -> Py B) w :
  (forall a w1, k a w1 = k' a w1) -> bind m k w = bind m k' w.
Proof.
  intros H. unfold bind. destruct (m w) as [w1 [a | e |]]; auto.
Qed.

(** A loop whose test holds runs one [iteration] and goes on with the next
    sequence number. *)
Lemma writer_loop_step fuel client script count interval follow rid sq w :
  (follow || (sq <=? count)%Z) = true ->
  writer_loop (S fuel) client script count interval follow rid sq w =
  bind (iteration client script interval rid sq)
       (fun _ => writer_loop fuel client script count interval follow rid (sq + 1))
       w.
Proof.
  intros Hc. cbn [writer_loop]. rewrite Hc.
  unfold iteration. rewrite bind_assoc_at.
  apply bind_ext_at. intros p w1. rewrite bind_assoc_at.
  apply bind_ext_at. intros _ w2. rewrite bind_assoc_at.
  reflexivity.
Qed.

Lemma new_events_app w w' d :
  trace w' = trace w ++ d -> new_events w w' = d.
Proof.
  intros H. unfold new_events. rewrite H. apply drop_app_length.
Qed.

(** ** One iteration *)

(** The records [build_log_payload] makes out of three raw draws. *)
Lemma nth_mod_In (l : list string) d r :
  l <> [] -> In (nth (r mod length l) l d) l.
Proof.
  intros Hl. apply nth_In. apply Nat.mod_upper_bound.
  destruct l; [congruence | discriminate].
Qed.

Lemma drawn_built script rid sq r1 r2 r3 d1 d2 :
  built script rid sq
    (mkPayload script
       (nth (r1 mod length LOG_LEVELS) LOG_LEVELS d1)
       (nth (r2 mod length LOG_MESSAGES) LOG_MESSAGES d2)
       (mkMetadata rid sq (45 + Z.of_nat r3 mod (1400 - 45 + 1))%Z)).
Proof.
  split; cbn [script_name metadata run_id sequence level message execution_ms];
    try reflexivity.
  - apply nth_mod_In. discriminate.
  - apply nth_mod_In. discriminate.
  - pose proof (Z.mod_pos_bound (Z.of_nat r3) (1400 - 45 + 1)%Z). lia.
Qed.

Lemma choice_levels :
  random_choice LOG_LEVELS =
  (tick >>> let* r := draw in
            ret (nth (r mod length LOG_LEVELS) LOG_LEVELS "debug")).
Proof. reflexivity. Qed.

Lemma choice_messages :
  random_choice LOG_MESSAGES =
  (tick >>> let* r := draw in
            ret (nth (r mod length LOG_MESSAGES) LOG_MESSAGES
                     "Starting scheduled task")).
Proof. reflexivity. Qed.

Lemma built_domains script rid sq p :
  built script rid sq p ->
  In (level p) ["debug"; "info"; "warning"; "error"] /\
  In (message p)
     [ "Starting scheduled task"; "Loading configuration";
       "Fetching upstream payload"; "Transforming dataset";
       "Completed batch successfully"; "Retrying after transient failure";
       "Writing output artifacts"; "Heartbeat check" ] /\
  (45 <= execution_ms (metadata p) <= 1400)%Z.
Proof.
  intros Hb. split; [exact (built_level _ _ _ _ Hb)|].
  split; [exact (built_message _ _ _ _ Hb) | exact (built_ms _ _ _ _ Hb)].
Qed.

Local Opaque pretty Nat.modulo Z.modulo nth LOG_LEVELS LOG_MESSAGES.
#[local] Arguments sleep_rejection : simpl never.

(** Runs a computation on a world whose fields are known: unfolds the
    operations down to the primitive effects and evaluates. *)
Ltac run_py :=
  unfold iteration, build_log_payload;
  rewrite ?choice_levels, ?choice_messages;
  unfold insert_log, try_except,
    table_insert_execute, print, time_sleep, random_randint,
    uuid4_str, load_config, os_getenv, create_client, parse_args, bind, tick,
    draw, ret, raise, emit;
  cbn.

(** Case analysis on what the insertion capability answers. *)
Ltac split_reply :=
  match goal with
  | |- context [respond ?c ?h ?n ?p] =>
      let e := fresh "e" in
      let H := fresh "Hreply" in
      destruct (respond c h n p) as [e|] eqn:H; cbn;
      [ let Hc := fresh "Hcls" in
        try (destruct (is_Exception (exn_cls e)) eqn:Hc; cbn) | ]
  end.

Lemma shape_refused_eq c script rid interval h sq p e e' :
  built script rid sq p ->
  respond c h "script_logs" p = Some e ->
  e' = insert_error e ->
  iter_shape c script rid interval h sq
    [EvInsert "script_logs" p (Some e)] (Raise e').
Proof. intros Hb Hr ->. now apply shape_refused. Qed.

Lemma insert_error_wrap e :
  is_Exception (exn_cls e) = true ->
  insert_error e = ExnFrom RuntimeError ("Insert failed: " +:+ exn_str e) e.
Proof. intros H. unfold insert_error. now rewrite H. Qed.

Lemma insert_error_pass e :
  is_Exception (exn_cls e) = false -> insert_error e = e.
Proof. intros H. unfold insert_error. now rewrite H. Qed.

Create HintDb writer.
#[local] Hint Resolve drawn_built eq_sym insert_error_wrap insert_error_pass
  : writer.

(** Names the events added and picks the shape they have. *)
Ltac close_shape :=
  first
    [ exists []; split; [symmetry; apply app_nil_r | apply shape_nothing]
    | eexists; split;
      [ rewrite <- ?app_assoc; reflexivity
      | first
          [ eapply shape_complete; solve [eauto with writer]
          | eapply shape_refused_eq; solve [eauto with writer]
          | eapply shape_unconfirmed; solve [eauto with writer]
          | eapply shape_unslept; solve [eauto with writer] ] ] ].

(** Whatever the world does, one iteration has one of the five shapes. *)
Lemma iteration_shape c s i rid sq w :
  exists d, trace (fst (iteration c s i rid sq w)) = trace w ++ d /\
    iter_shape c s rid i (trace w) sq d (snd (iteration c s i rid sq w)).
Proof.
  destruct w as [av en co up ut ent eu sg tr].
  destruct s as [|a s].
  { exists []. run_py. rewrite app_nil_r. split; [reflexivity | constructor]. }
  destruct (sleep_rejection i) as [err|] eqn:Hi;
  destruct sg as [[|[|[|[|[|[|m]]]]]]|]; run_py; rewrite ?Hi; cbn;
  try split_reply; close_shape.
Qed.

(** ** Iterations that nothing disturbs *)

Section Undisturbed.

Variables (client : Client) (script : string) (interval : pyfloat).
Hypothesis script_given : str_truthy script = true.
Hypothesis accepts : always_accepts client.
Hypothesis delay_ok : sleep_rejection interval = None.

Lemma iteration_passes rid sq w :
  passes 6 w ->
  exists p w',
    iteration client script interval rid sq w = (w', Return tt) /\
    built script rid sq p /\
    trace w' = trace w ++ iteration_events script interval p /\
    sigint w' = countdown 6 (sigint w).
Proof.
  destruct w as [av en co up ut ent eu sg tr].
  destruct script as [|a s]; [discriminate|].
  unfold passes. cbn [sigint].
  destruct sg as [[|[|[|[|[|[|m]]]]]]|]; try lia; intros _;
    run_py; rewrite ?delay_ok, ?accepts; cbn; rewrite ?accepts; cbn.
  all: eexists; eexists; split; [reflexivity|];
    split; [apply drawn_built|]; cbn; rewrite <- ?app_assoc;
    split; [reflexivity|]; rewrite ?Nat.sub_0_r; reflexivity.
Qed.

Lemma iteration_interrupted rid sq w m :
  sigint w = Some m -> m < 6 ->
  exists w' d,
    iteration client script interval rid sq w =
      (w', Raise (Exn KeyboardInterrupt "")) /\
    trace w' = trace w ++ d /\
    sigint w' = None.
Proof.
  destruct w as [av en co up ut ent eu sg tr].
  destruct script as [|a s]; [discriminate|].
  cbn [sigint]. intros -> Hm.
  destruct m as [|[|[|[|[|[|m]]]]]]; try lia;
    run_py; rewrite ?delay_ok, ?accepts; cbn; rewrite ?accepts; cbn.
  all: eexists; eexists; split; [reflexivity|]; cbn; rewrite <- ?app_assoc;
    split; [| reflexivity].
  all: first [ symmetry; apply app_nil_r | reflexivity ].
Qed.

(** Bookkeeping of the interrupt countdown. *)
Lemma passes_weaken k k' w : passes k w -> k' <= k -> passes k' w.
Proof. unfold passes. destruct (sigint w); [lia | trivial]. Qed.

Lemma passes_countdown k k' w w' :
  passes (k' + k) w -> sigint w' = countdown k' (sigint w) -> passes k w'.
Proof.
  unfold passes, countdown. intros H ->. destruct (sigint w); [lia | trivial].
Qed.

Lemma countdown_add k k' s :
  countdown k (countdown k' s) = countdown (k' + k) s.
Proof. destruct s; cbn; [f_equal; lia | reflexivity]. Qed.

(** The first [k] iterations, when the loop condition holds for all of them
    and no interrupt lands on them. *)
Lemma writer_loop_unroll k :
  forall fuel count follow rid sq w,
    passes (6 * k) w ->
    follow = true \/ (sq + Z.of_nat k - 1 <= count)%Z ->
    exists rows w1,
      length rows = k /\
      numbered script rid sq rows /\
      trace w1 = trace w ++ flat_map (iteration_events script interval) rows /\
      sigint w1 = countdown (6 * k) (sigint w) /\
      writer_loop (k + fuel) client script count interval follow rid sq w =
      writer_loop fuel client script count interval follow rid
                  (sq + Z.of_nat k) w1.
Proof.
  induction k as [|k IH]; intros fuel count follow rid sq w Hp Hc.
  - exists [], w. cbn [length numbered flat_map]. rewrite app_nil_r.
    refine (conj eq_refl (conj I (conj eq_refl (conj _ _)))).
    + destruct (sigint w); cbn; [f_equal; lia | reflexivity].
    + cbn. now rewrite Z.add_0_r.
  - destruct (iteration_passes rid sq w) as (p & w' & Hit & Hb & Htr & Hsg).
    { eapply passes_weaken; [exact Hp | lia]. }
    destruct (IH fuel count follow rid (sq + 1)%Z w')
      as (rows & w1 & Hlen & Hnum & Htr1 & Hsg1 & Hrun).
    { eapply passes_countdown; [| exact Hsg].
      eapply passes_weaken; [exact Hp | lia]. }
    { destruct Hc as [Hc | Hc]; [now left | right; lia]. }
    exists (p :: rows), w1. cbn [length numbered flat_map].
    refine (conj _ (conj (conj Hb Hnum) (conj _ (conj _ _)))).
    + now rewrite Hlen.
    + rewrite Htr1, Htr. now rewrite <- app_assoc.
    + rewrite Hsg1, Hsg, countdown_add. f_equal. lia.
    + cbn [Nat.add]. rewrite writer_loop_step.
      * rewrite (bind_return_at _ _ _ _ _ Hit). rewrite Hrun.
        f_equal. lia.
      * destruct Hc as [-> | Hc]; [reflexivity|].
        apply orb_true_iff. right. apply Z.leb_le. lia.
Qed.

End Undisturbed.

(** ** A run of the writer *)

(** A string is truthy when it is not empty. *)
Lemma str_truthy_iff s : str_truthy s = true <-> s <> "".
Proof. destruct s; cbn; split; congruence. Qed.

Lemma inserted_app d1 d2 : inserted (d1 ++ d2) = inserted d1 ++ inserted d2.
Proof.
  induction d1 as [|[t p r | l | q] d1 IH]; cbn; rewrite ?IH; reflexivity.
Qed.

Lemma inserted_iterations script interval rows :
  inserted (flat_map (iteration_events script interval) rows) = rows.
Proof. induction rows as [|p rows IH]; cbn; [|rewrite IH]; reflexivity. Qed.

Lemma length_iterations script interval rows :
  length (flat_map (iteration_events script interval) rows) = 3 * length rows.
Proof.
  induction rows as [|p rows IH]; [reflexivity|].
  cbn [flat_map]. rewrite length_app, IH. cbn [iteration_events length]. lia.
Qed.

Lemma uuid4_passes w :
  passes 1 w ->
  exists w',
    uuid4_str w = (w', Return (uuid_pool w (uuid_taken w))) /\
    trace w' = trace w /\ sigint w' = countdown 1 (sigint w).
Proof.
  destruct w as [av en co up ut ent eu sg tr]. unfold passes. cbn [sigint].
  destruct sg as [[|m]|]; try lia; intros _; run_py;
    eexists; repeat split; rewrite ?Nat.sub_0_r; reflexivity.
Qed.

(** Past [count], a bounded loop returns at once, whatever the fuel. *)
Lemma writer_loop_done fuel client script count interval rid sq w :
  (count < sq)%Z ->
  writer_loop fuel client script count interval false rid sq w = (w, Return tt).
Proof.
  intros H. destruct fuel; cbn [writer_loop orb];
    (replace (sq <=? count)%Z with false by (symmetry; apply Z.leb_gt; lia));
    reflexivity.
Qed.

(** [time.sleep] takes every length between zero and [MAX_SLEEP]. *)
Lemma sleepable_accepted secs : sleepable secs -> sleep_rejection secs = None.
Proof.
  destruct secs as [q | neg |]; cbn [sleepable]; try contradiction.
  intros [H0 Hmax]. unfold sleep_rejection.
  assert (Hmin : (MIN_SLEEP <= q)%Q).
  { apply Qle_trans with 0%Q; [discriminate | exact H0]. }
  apply Qle_bool_iff in H0, Hmax, Hmin. rewrite H0, Hmax, Hmin. reflexivity.
Qed.

Lemma writer_loop_out_of_fuel client script count interval rid sq w :
  writer_loop 0 client script count interval true rid sq w = (w, Unfinished).
Proof. reflexivity. Qed.

(** A run that nothing disturbs: complete iterations only. *)
Lemma run_writer_undisturbed fuel client script count interval follow w :
  str_truthy script = true ->
  always_accepts client ->
  sleep_rejection interval = None ->
  follow = true \/ ((0 <= count)%Z /\ Z.to_nat count <= fuel) ->
  passes (1 + 6 * iterations_planned fuel count follow) w ->
  exists rows w',
    run_writer fuel client script count interval follow w =
      (w', if follow then Unfinished else Return tt) /\
    length rows = iterations_planned fuel count follow /\
    numbered script (uuid_pool w (uuid_taken w)) 1 rows /\
    trace w' = trace w ++ flat_map (iteration_events script interval) rows.
Proof.
  intros Hs Hc Hi Hn Hp.
  set (k := iterations_planned fuel count follow) in *.
  assert (Hk : k <= fuel).
  { subst k. unfold iterations_planned. destruct follow; [lia|].
    destruct Hn as [Hn | Hn]; [discriminate | lia]. }
  destruct (uuid4_passes w) as (w0 & Hu & Htr0 & Hsg0).
  { eapply passes_weaken; [exact Hp | lia]. }
  destruct (writer_loop_unroll client script interval Hs Hc Hi k
              (fuel - k) count follow (uuid_pool w (uuid_taken w)) 1%Z w0)
    as (rows & w1 & Hlen & Hnum & Htr & _ & Hrun).
  { eapply passes_countdown; [| exact Hsg0]. exact Hp. }
  { subst k. unfold iterations_planned.
    destruct follow; [now left | right].
    destruct Hn as [Hn | Hn]; [discriminate | lia]. }
  exists rows, w1. unfold run_writer.
  rewrite (bind_return_at _ _ _ _ _ Hu).
  replace fuel with (k + (fuel - k)) at 1 by lia.
  rewrite Hrun, Htr, Htr0.
  subst k. unfold iterations_planned in *. destruct follow.
  - replace (fuel - fuel) with 0 by lia. rewrite writer_loop_out_of_fuel. auto.
  - destruct Hn as [Hn | Hn]; [discriminate|].
    rewrite writer_loop_done by lia. auto.
Qed.




Lemma last_iterations script interval rows :
  rows <> [] ->
  last (flat_map (iteration_events script interval) rows) = Some (EvSleep interval).
Proof.
  induction rows as [|p rows IH]; [congruence | intros _].
  cbn [flat_map]. rewrite last_app.
  destruct rows as [|q rows]; [reflexivity|].
  rewrite IH by discriminate. reflexivity.
Qed.




(** C9. With [follow] false and a negative [count] the loop condition fails at
    sequence number 1: the run attempts no insertion and, unless the interrupt
    lands on it, returns normally with nothing done, on any fuel and for any
    script name; it is the very run that [count = 0] gives. *)
Theorem negative_count_does_nothing
    (fuel : nat) (client : Client) (script : string) (count : Z)
    (interval : Q) (w : World) :
  (count < 0)%Z ->
  let r := run_writer fuel client script count interval false w in
  r = run_writer fuel client script 0 interval false w /\
  inserted (new_events w (fst r)) = [] /\
  (sigint w = None -> snd r = Return tt /\ new_events w (fst r) = []).
Proof.
  intros Hn r. subst r. unfold run_writer, bind.
  destruct (uuid4_str w) as [w0 [rid | e |]] eqn:Hu.
  - rewrite !writer_loop_done by lia.
    assert (Htr : trace w0 = trace w).
    { revert Hu. destruct w as [av en co up ut ent eu sg tr].
      destruct sg as [[|m]|]; run_py; intros [= <- _]; reflexivity. }
    cbn [fst snd]. unfold new_events. rewrite Htr, drop_all. auto.
  - assert (Htr : trace w0 = trace w /\ sigint w <> None).
    { revert Hu. destruct w as [av en co up ut ent eu sg tr].
      destruct sg as [[|m]|]; run_py; intros [= <- ?]; split;
        try reflexivity; discriminate. }
    destruct Htr as [Htr Hsg].
    cbn [fst snd]. unfold new_events. rewrite Htr, drop_all.
    split; [reflexivity | split; [reflexivity | congruence]].
  - exfalso. revert Hu. destruct w as [av en co up ut ent eu sg tr].
    destruct sg as [[|m]|]; run_py; discriminate.
Qed.

Lemma negative_count_does_nothing_witness :
  let r := run_writer 0 accepting_client "demo-script" (-5) 1 false quiet_world in
  r = run_writer 0 accepting_client "demo-script" 0 1 false quiet_world /\
  inserted (new_events quiet_world (fst r)) = [] /\
  snd r = Return tt /\ new_events quiet_world (fst r) = [].
Proof.
  destruct (negative_count_does_nothing 0 accepting_client "demo-script" (-5) 1
              quiet_world) as (Hsame & Hnone & Hret); [lia|].
  split; [exact Hsame|]. split; [exact Hnone|]. apply Hret. reflexivity.
Defined.

(** ** The shape of every run *)

(** The loop, from any world, on any fuel, follows [run_shape]. *)
Lemma writer_loop_shape fuel client script count interval follow rid :
  forall sq w,
    let r := writer_loop fuel client script count interval follow rid sq w in
    exists d,
      trace (fst r) = trace w ++ d /\
      run_shape client script rid interval (trace w) sq d (snd r).
Proof.
  induction fuel as [|fuel IH]; intros sq w r; subst r.
  - cbn [writer_loop].
    destruct (follow || (sq <=? count)%Z); exists []; cbn [fst snd ret];
      rewrite app_nil_r; split; try reflexivity; constructor.
  - destruct (follow || (sq <=? count)%Z) eqn:Hc.
    + rewrite writer_loop_step by exact Hc. unfold bind.
      destruct (iteration_shape client script interval rid sq w)
        as (d1 & Htr1 & Hsh1).
      destruct (iteration client script interval rid sq w) as [w1 [[] | e |]];
        cbn [fst snd] in *.
      * destruct (IH (sq + 1)%Z w1) as (d2 & Htr2 & Hsh2).
        exists (d1 ++ d2). rewrite Htr2, Htr1, <- app_assoc.
        split; [reflexivity|].
        eapply run_more; [exact Hsh1|]. rewrite <- Htr1. exact Hsh2.
      * exists d1. split; [exact Htr1 | now apply run_abort].
      * inversion Hsh1.
    + cbn [writer_loop]. rewrite Hc. exists []. cbn [fst snd ret].
      rewrite app_nil_r. split; [reflexivity | constructor].
Qed.

Lemma run_writer_shape fuel client script count interval follow w :
  let r := run_writer fuel client script count interval follow w in
  exists d,
    trace (fst r) = trace w ++ d /\
    run_shape client script (uuid_pool w (uuid_taken w)) interval
      (trace w) 1 d (snd r).
Proof.
  intros r. subst r. unfold run_writer, bind.
  destruct (uuid4_str w) as [w0 [rid | e |]] eqn:Hu.
  - assert (Hw0 : trace w0 = trace w /\ rid = uuid_pool w (uuid_taken w)).
    { revert Hu. destruct w as [av en co up ut ent eu sg tr].
      destruct sg as [[|m]|]; run_py; intros [= <- <-]; split; reflexivity. }
    destruct Hw0 as [Htr ->]. rewrite <- Htr. apply writer_loop_shape.
  - assert (Htr : trace w0 = trace w).
    { revert Hu. destruct w as [av en co up ut ent eu sg tr].
      destruct sg as [[|m]|]; run_py; intros [= <- _]; reflexivity. }
    exists []. cbn [fst snd]. rewrite app_nil_r.
    split; [exact Htr | apply run_abort, shape_nothing].
  - exfalso. revert Hu. destruct w as [av en co up ut ent eu sg tr].
    destruct sg as [[|m]|]; run_py; discriminate.
Qed.

Lemma iter_shape_rows client script rid interval h sq d o :
  iter_shape client script rid interval h sq d o ->
  (inserted d = [] /\ o <> Return tt) \/
  (exists p, inserted d = [p] /\ built script rid sq p).
Proof.
  intros [p Hb Hr | e | p e Hb Hr | p e Hb Hr | p e Hb Hr]; cbn [inserted iteration_events];
    first [ left; split; [reflexivity | discriminate] | right; eauto ].
Qed.

Lemma run_shape_numbered client script rid interval h sq d o :
  run_shape client script rid interval h sq d o ->
  numbered script rid sq (inserted d).
Proof.
  induction 1 as [h sq | h sq | h sq d e Hit | h sq d1 d2 o Hit Hrest IH].
  - exact I.
  - exact I.
  - destruct (iter_shape_rows _ _ _ _ _ _ _ _ Hit) as [[-> _] | (p & -> & Hb)];
      cbn; auto.
  - rewrite inserted_app.
    destruct (iter_shape_rows _ _ _ _ _ _ _ _ Hit) as [[_ Ho] | (p & -> & Hb)];
      [congruence|].
    cbn. auto.
Qed.

Lemma numbered_pairs script rid rows :
  forall a : nat,
    numbered script rid (Z.of_nat a) rows ->
    map (fun p => (run_id (metadata p), sequence (metadata p))) rows =
    map (fun k => (rid, Z.of_nat k)) (seq a (length rows)).
Proof.
  induction rows as [|p rows IH]; intros a Hn; [reflexivity|].
  destruct Hn as [Hb Hn]. cbn [map length seq].
  rewrite (built_run_id _ _ _ _ Hb), (built_sequence _ _ _ _ Hb).
  f_equal. apply IH. now replace (Z.of_nat (S a)) with (Z.of_nat a + 1)%Z by lia.
Qed.

(** C2. In one execution of [run_writer], whatever the world does and however
    the run ends, the records handed to the insertion capability all carry
    the run id drawn when the run started, and their sequence numbers are
    1, 2, 3, ... in this order: no gap, no repeat. *)
Theorem run_id_fixed_and_sequence_consecutive
    (fuel : nat) (client : Client) (script : string) (count : Z)
    (interval : Q) (follow : bool) (w : World) :
  let r := run_writer fuel client script count interval follow w in
  let rows := inserted (new_events w (fst r)) in
  map (fun p => (run_id (metadata p), sequence (metadata p))) rows =
  map (fun k => (uuid_pool w (uuid_taken w), Z.of_nat k)) (seq 1 (length rows)).
Proof.
  intros r rows. subst rows r.
  destruct (run_writer_shape fuel client script count interval follow w)
    as (d & Htr & Hsh).
  rewrite (new_events_app _ _ _ Htr).
  eapply numbered_pairs. eapply run_shape_numbered. exact Hsh.
Qed.

(** ** Refused insertions *)

(** A refused insertion can only be the single event of an iteration. *)
Lemma iter_shape_refusal client script rid interval h sq d o k t p e :
  iter_shape client script rid interval h sq d o ->
  d !! k = Some (EvInsert t p (Some e)) ->
  k = 0 /\ length d = 1 /\ o = Raise (insert_error e) /\
  respond client h t p = Some e.
Proof.
  intros [p0 Hb Hr | e0 | p0 e0 Hb Hr | p0 e0 Hb Hr | p0 e0 Hb Hr] Hk;
    destruct k as [|[|[|k]]]; cbn in Hk; try discriminate.
  injection Hk as <- <- <-. auto.
Qed.

Lemma run_shape_refusal client script rid interval h sq d o :
  run_shape client script rid interval h sq d o ->
  forall k t p e,
    d !! k = Some (EvInsert t p (Some e)) ->
    length d = S k /\ o = Raise (insert_error e) /\
    respond client (h ++ take k d) t p = Some e.
Proof.
  induction 1 as [h sq | h sq | h sq d e0 Hit | h sq d1 d2 o Hit Hrest IH];
    intros k t p e Hk.
  - discriminate.
  - discriminate.
  - destruct (iter_shape_refusal _ _ _ _ _ _ _ _ _ _ _ _ Hit Hk)
      as (-> & Hlen & Ho & Hr).
    cbn [take]. rewrite app_nil_r. auto.
  - apply lookup_app_Some in Hk as [Hk | [Hge Hk]].
    + destruct (iter_shape_refusal _ _ _ _ _ _ _ _ _ _ _ _ Hit Hk)
        as (_ & _ & Ho & _).
      discriminate.
    + destruct (IH _ _ _ _ Hk) as (Hlen & Ho & Hr).
      rewrite length_app, Hlen, take_app_ge, app_assoc by exact Hge.
      repeat split; [lia | exact Ho | exact Hr].
Qed.

Lemma numbered_last script rid rows p :
  forall sq,
    numbered script rid sq (rows ++ [p]) ->
    sequence (metadata p) = (sq + Z.of_nat (length rows))%Z.
Proof.
  induction rows as [|q rows IH]; intros sq Hn.
  - destruct Hn as [Hb _]. rewrite (built_sequence _ _ _ _ Hb). cbn. lia.
  - destruct Hn as [_ Hn]. rewrite (IH _ Hn). cbn [length]. lia.
Qed.

(** C3. Whenever the insertion capability raises an [Exception] on an attempt
    of a run, that attempt is the last thing the run does: the trace ends
    with it (no retry, no further attempt, no confirmation, no sleep), the
    attempts made are as many as the sequence number of the refused record,
    and [run_writer] raises a [RuntimeError] whose text is "Insert failed: "
    followed by the text of the capability's error and whose cause is that
    error. *)
Theorem insertion_failure_stops_the_run
    (fuel : nat) (client : Client) (script : string) (count : Z)
    (interval : Q) (follow : bool) (w : World)
    (k : nat) (table : string) (row : Payload) (e : exn) :
  let r := run_writer fuel client script count interval follow w in
  new_events w (fst r) !! k = Some (EvInsert table row (Some e)) ->
  is_Exception (exn_cls e) = true ->
  respond client (trace w ++ take k (new_events w (fst r))) table row = Some e /\
  length (new_events w (fst r)) = S k /\
  Z.of_nat (length (inserted (new_events w (fst r)))) = sequence (metadata row) /\
  snd r = Raise (ExnFrom RuntimeError ("Insert failed: " +:+ exn_str e) e) /\
  (forall e', snd r = Raise e' -> exn_cause e' = Some e).
Proof.
  intros r Hk He. subst r.
  destruct (run_writer_shape fuel client script count interval follow w)
    as (d & Htr & Hsh).
  rewrite (new_events_app _ _ _ Htr) in *.
  destruct (run_shape_refusal _ _ _ _ _ _ _ _ Hsh _ _ _ _ Hk) as (Hlen & Ho & Hr).
  rewrite insert_error_wrap in Ho by exact He.
  assert (Hd : d = take k d ++ [EvInsert table row (Some e)]).
  { rewrite <- (take_S_r _ _ _ Hk). symmetry. apply take_ge. lia. }
  apply run_shape_numbered in Hsh.
  rewrite Hd, inserted_app in Hsh. cbn [inserted] in Hsh.
  apply numbered_last in Hsh.
  repeat split; try assumption.
  - rewrite Hd at 1. rewrite inserted_app, length_app. cbn [inserted length]. lia.
  - rewrite Ho. intros e' [= <-]. reflexivity.
Qed.

Lemma insertion_failure_stops_the_run_witness :
  let w := sample_world default_namespace flaky_client sample_environ None in
  let row :=
    mkPayload "demo-script" "info" "Completed batch successfully"
              (mkMetadata "run-0" 3 104) in
  let e := Exn (LibraryError "APIError") "connection refused" in
  let r := run_writer 10 flaky_client "demo-script" 5 1 false w in
  respond flaky_client (trace w ++ take 6 (new_events w (fst r)))
          "script_logs" row = Some e /\
  length (new_events w (fst r)) = 7 /\
  Z.of_nat (length (inserted (new_events w (fst r)))) = sequence (metadata row) /\
  snd r = Raise (ExnFrom RuntimeError ("Insert failed: " +:+ exn_str e) e) /\
  (forall e', snd r = Raise e' -> exn_cause e' = Some e).
Proof.
  intros w row e.
  apply (insertion_failure_stops_the_run 10 flaky_client "demo-script" 5 1
           false w 6 "script_logs" row e).
  - vm_compute. reflexivity.
  - reflexivity.
Defined.

(** ** Building a record *)

(** [build_log_payload] leaves the trace alone and ends in one of three
    ways: the validation error, an interrupt, or a record. *)
Lemma build_log_payload_cases script rid sq w :
  let r := build_log_payload script rid sq w in
  trace (fst r) = trace w /\
  ( (script = "" /\ r = (w, Raise (Exn ValueError "script_name is required")))
    \/ (script <> "" /\ sigint w <> None /\
        snd r = Raise (Exn KeyboardInterrupt ""))
    \/ (script <> "" /\ exists p, snd r = Return p /\ built script rid sq p) ).
Proof.
  destruct w as [av en co up ut ent eu sg tr].
  destruct script as [|a s].
  { split; [reflexivity | left; split; reflexivity]. }
  destruct sg as [[|[|[|m]]]|]; run_py; (split; [reflexivity|]).
  1-3: right; left; repeat split; discriminate.
  all: right; right; split; [discriminate|];
    eexists; split; [reflexivity | apply drawn_built].
Qed.

Lemma build_log_payload_calm script rid sq w :
  script <> "" -> sigint w = None ->
  exists p, snd (build_log_payload script rid sq w) = Return p /\
            built script rid sq p.
Proof.
  intros Hs Hsig.
  destruct (build_log_payload_cases script rid sq w)
    as (_ & [[He _] | [(_ & Hi & _) | (_ & Hp)]]); [contradiction.. | exact Hp].
Qed.

(** With the empty script name the loop fails in its first iteration. *)
Lemma writer_loop_unnamed fuel client count interval follow rid sq w :
  let r := writer_loop fuel client "" count interval follow rid sq w in
  trace (fst r) = trace w /\
  (fuel <> 0 -> (follow || (sq <=? count)%Z) = true ->
   snd r = Raise (Exn ValueError "script_name is required")).
Proof.
  destruct fuel as [|fuel]; cbn [writer_loop];
    destruct (follow || (sq <=? count)%Z); cbn; split; congruence.
Qed.

(** C5. [build_log_payload] raises its validation error exactly when the
    script name is empty: with the empty name it raises [ValueError] at once,
    leaving the world untouched; with any other name, any run id and any
    sequence number it never raises that error and, not interrupted, returns a
    record.  In [run_writer] the empty name fails before any insertion: the
    run adds no event at all, and raises the validation error as soon as the
    loop is entered. *)
Theorem build_log_payload_fails_iff_empty
    (script rid : string) (sq : Z) (w : World) :
  (snd (build_log_payload script rid sq w) =
     Raise (Exn ValueError "script_name is required") <-> script = "") /\
  (script = "" ->
   build_log_payload script rid sq w =
     (w, Raise (Exn ValueError "script_name is required"))) /\
  (script <> "" -> sigint w = None ->
   exists p, snd (build_log_payload script rid sq w) = Return p /\
             script_name p = script /\
             run_id (metadata p) = rid /\ sequence (metadata p) = sq) /\
  (script = "" ->
   forall fuel client count interval follow,
     let r := run_writer fuel client script count interval follow w in
     new_events w (fst r) = [] /\
     (sigint w = None -> fuel <> 0 -> follow = true \/ (1 <= count)%Z ->
      snd r = Raise (Exn ValueError "script_name is required"))).
Proof.
  destruct (build_log_payload_cases script rid sq w) as (_ & Hcases).
  split; [|split; [|split]].
  - destruct Hcases as [[He Hr] | [(Hs & _ & Hr) | (Hs & p & Hr & _)]].
    + rewrite Hr. cbn. tauto.
    + rewrite Hr. split; [discriminate | contradiction].
    + rewrite Hr. split; [discriminate | contradiction].
  - intros He.
    destruct Hcases as [[_ Hr] | [(Hs & _) | (Hs & _)]];
      [exact Hr | contradiction..].
  - intros Hs Hsig.
    destruct (build_log_payload_calm script rid sq w Hs Hsig) as (p & Hr & Hb).
    exists p. destruct Hb. auto.
  - intros -> fuel client count interval follow r. subst r.
    unfold run_writer, bind.
    destruct w as [av en co up ut ent eu sg tr].
    destruct sg as [[|m]|]; run_py;
      try (split; [unfold new_events; apply drop_all | discriminate]).
    + match goal with
      | |- context [writer_loop ?f ?c "" ?n ?i ?fl ?rid ?sq ?w0] =>
          destruct (writer_loop_unnamed f c n i fl rid sq w0) as [Htr _]
      end.
      split; [| discriminate].
      unfold new_events. rewrite Htr. apply drop_all.
    + match goal with
      | |- context [writer_loop ?f ?c "" ?n ?i ?fl ?rid ?sq ?w0] =>
          destruct (writer_loop_unnamed f c n i fl rid sq w0) as [Htr Hout]
      end.
      split; [unfold new_events; rewrite Htr; apply drop_all|].
      intros _ Hf Hc. apply Hout; [exact Hf|].
      destruct Hc as [-> | Hc]; [reflexivity|].
      apply orb_true_iff. right. apply Z.leb_le. exact Hc.
Qed.

Lemma build_log_payload_fails_iff_empty_witness :
  (snd (build_log_payload "demo-script" "run-0" 1 quiet_world) =
     Raise (Exn ValueError "script_name is required") <-> "demo-script" = "") /\
  (exists p, snd (build_log_payload "demo-script" "run-0" 1 quiet_world) = Return p /\
             script_name p = "demo-script" /\
             run_id (metadata p) = "run-0" /\ sequence (metadata p) = 1%Z) /\
  (let r := run_writer 3 accepting_client "" 2 1 false quiet_world in
   new_events quiet_world (fst r) = [] /\
   snd r = Raise (Exn ValueError "script_name is required")).
Proof.
  pose proof (build_log_payload_fails_iff_empty "demo-script" "run-0" 1 quiet_world)
    as (Hiff & _ & Hok & _).
  pose proof (build_log_payload_fails_iff_empty "" "run-0" 1 quiet_world)
    as (_ & _ & _ & Hrun).
  split; [exact Hiff|]. split.
  - apply Hok; [discriminate | reflexivity].
  - destruct (Hrun eq_refl 3 accepting_client 2%Z 1%Q false) as [Hnone Hraise].
    split; [exact Hnone|].
    apply Hraise; [reflexivity | discriminate | right; lia].
Defined.

(** C7. Every record [build_log_payload] returns has a level among debug,
    info, warning and error, a message among the eight templates, and an
    [execution_ms] between 45 and 1400 inclusive; and for a non-empty script
    name it does return one unless it is interrupted. *)
Theorem payload_fields_within_domains
    (script rid : string) (sq : Z) (w : World) :
  (forall p,
     snd (build_log_payload script rid sq w) = Return p ->
     In (level p) ["debug"; "info"; "warning"; "error"] /\
     In (message p)
        [ "Starting scheduled task"; "Loading configuration";
          "Fetching upstream payload"; "Transforming dataset";
          "Completed batch successfully"; "Retrying after transient failure";
          "Writing output artifacts"; "Heartbeat check" ] /\
     (45 <= execution_ms (metadata p) <= 1400)%Z) /\
  (script <> "" -> sigint w = None ->
   exists p, snd (build_log_payload script rid sq w) = Return p).
Proof.
  split.
  - intros p Hp.
    destruct (build_log_payload_cases script rid sq w)
      as (_ & [[_ Hr] | [(_ & _ & Hr) | (_ & q & Hr & Hb)]]).
    + rewrite Hr in Hp. discriminate.
    + rewrite Hr in Hp. discriminate.
    + rewrite Hr in Hp. injection Hp as <-. exact (built_domains _ _ _ _ Hb).
  - intros Hs Hsig.
    destruct (build_log_payload_calm script rid sq w Hs Hsig) as (p & Hr & _).
    eauto.
Qed.

Lemma payload_fields_within_domains_witness :
  let p := mkPayload "demo-script" "error" "Fetching upstream payload"
                     (mkMetadata "run-0" 1 62) in
  snd (build_log_payload "demo-script" "run-0" 1 quiet_world) = Return p /\
  In (level p) ["debug"; "info"; "warning"; "error"] /\
  In (message p)
     [ "Starting scheduled task"; "Loading configuration";
       "Fetching upstream payload"; "Transforming dataset";
       "Completed batch successfully"; "Retrying after transient failure";
       "Writing output artifacts"; "Heartbeat check" ] /\
  (45 <= execution_ms (metadata p) <= 1400)%Z.
Proof.
  intros p.
  assert (Hp : snd (build_log_payload "demo-script" "run-0" 1 quiet_world) = Return p)
    by (vm_compute; reflexivity).
  split; [exact Hp|].
  exact (proj1 (payload_fields_within_domains "demo-script" "run-0" 1 quiet_world)
               p Hp).
Defined.

(** The domains are tight: every level, every message and every duration of
    the range is what [build_log_payload] returns in some world. *)
Lemma every_domain_value_is_drawn script rid sq l m v :
  script <> "" ->
  In l LOG_LEVELS -> In m LOG_MESSAGES -> (45 <= v <= 1400)%Z ->
  exists w p,
    snd (build_log_payload script rid sq w) = Return p /\
    level p = l /\ message p = m /\ execution_ms (metadata p) = v.
Proof.
  intros Hs Hl Hm Hv.
  destruct (In_nth _ _ "debug" Hl) as (i & Hi & Hli).
  destruct (In_nth _ _ "Starting scheduled task" Hm) as (j & Hj & Hmj).
  exists (mkWorld None ∅ (fun _ _ => inl accepting_client) (fun _ => "") 0
            (fun n => match n with
                      | 0 => i
                      | 1 => j
                      | _ => Z.to_nat (v - 45)
                      end) 0 None []).
  destruct script as [|a s]; [congruence|].
  eexists. run_py. split; [reflexivity|].
  cbn [level message metadata execution_ms].
  rewrite !Nat.mod_small by assumption.
  rewrite Z2Nat.id, Z.mod_small by lia.
  repeat split; try assumption. lia.
Qed.

(** ** Configuration *)

(** [load_config] reads the two variables (two runtime calls) and either is
    interrupted, or returns them, or raises the configuration error. *)
Lemma load_config_cases w :
  let r := load_config w in
  trace (fst r) = trace w /\
  connect (fst r) = connect w /\
  (sigint w = None -> fst r = w) /\
  ( (~ passes 2 w /\ snd r = Raise (Exn KeyboardInterrupt ""))
    \/ (passes 2 w /\ sigint (fst r) = countdown 2 (sigint w) /\
        ( (exists u k, configured (environ w) u k /\ snd r = Return (u, k))
          \/ ((forall u k, ~ configured (environ w) u k) /\
              snd r = Raise config_error) )) ).
Proof.
  destruct w as [av en co up ut ent eu sg tr].
  unfold passes, configured. cbn [sigint environ].
  destruct sg as [[|[|m]]|]; run_py.
  1-2: repeat split; try discriminate; left; split; [lia | reflexivity].
  all: destruct (en !! "SUPABASE_URL") as [[|a u]|] eqn:Hu;
       destruct (en !! "SUPABASE_SERVICE_ROLE_KEY") as [[|b k]|] eqn:Hk; cbn.
  all: repeat split; try reflexivity; try discriminate; right.
  all: split; [lia || exact I|]; split; [rewrite ?Nat.sub_0_r; reflexivity|].
  all: first
    [ left; eexists; eexists; repeat split; solve [eauto | discriminate]
    | right; split; [|reflexivity];
      intros u' k' (H1 & H2 & H3 & H4); congruence ].
Qed.

(** C10. Not interrupted, [load_config] returns the pair [(url, key)] exactly
    when SUPABASE_URL and SUPABASE_SERVICE_ROLE_KEY are both set to non-empty
    strings, and raises the configuration error in every other case; a
    variable set to the empty string is refused like an absent one. *)
Theorem load_config_needs_nonempty_values (w : World) :
  sigint w = None ->
  (forall url key,
     load_config w = (w, Return (url, key)) <-> configured (environ w) url key) /\
  (load_config w = (w, Raise config_error) <->
   forall url key, ~ configured (environ w) url key) /\
  (environ w !! "SUPABASE_URL" = Some "" \/
   environ w !! "SUPABASE_SERVICE_ROLE_KEY" = Some "" ->
   load_config w = (w, Raise config_error)).
Proof.
  intros Hsig.
  destruct (load_config_cases w) as (_ & _ & Hw & Hcases).
  specialize (Hw Hsig).
  assert (Hp : passes 2 w) by (unfold passes; now rewrite Hsig).
  destruct Hcases as [[Hnp _] | (_ & _ & Hcases)]; [contradiction|].
  assert (Hpair : load_config w = (w, snd (load_config w))).
  { rewrite <- Hw at 2. apply surjective_pairing. }
  assert (Hbad : (forall url key, ~ configured (environ w) url key) ->
                 load_config w = (w, Raise config_error)).
  { intros Hno. destruct Hcases as [(u & k & Hc & _) | [_ Hr]].
    - destruct (Hno u k Hc).
    - now rewrite Hpair, Hr. }
  split; [|split].
  - intros url key. split.
    + intros Hret. rewrite Hret in Hcases. cbn [snd] in Hcases.
      destruct Hcases as [(u & k & Hc & [= -> ->]) | [_ Hr]];
        [exact Hc | discriminate].
    + intros (H1 & H2 & H3 & H4).
      destruct Hcases as [(u & k & (G1 & G2 & _) & Hr) | [Hno _]].
      * rewrite Hpair, Hr. repeat f_equal; congruence.
      * destruct (Hno url key). repeat split; assumption.
  - split; [|exact Hbad].
    intros Hraise url key Hc. rewrite Hraise in Hcases. cbn [snd] in Hcases.
    destruct Hcases as [(u & k & _ & Hr) | [Hno _]];
      [discriminate | exact (Hno url key Hc)].
  - intros Hempty. apply Hbad. intros url key (H1 & H2 & H3 & H4).
    destruct Hempty as [He | He]; congruence.
Qed.

Lemma load_config_needs_nonempty_values_witness :
  let w := sample_world default_namespace accepting_client
             (<["SUPABASE_URL" := ""]> sample_environ) None in
  load_config quiet_world =
    (quiet_world, Return ("http://localhost:54321", "service-role")) /\
  load_config w = (w, Raise config_error).
Proof.
  intros w. split.
  - apply (proj1 (load_config_needs_nonempty_values quiet_world eq_refl)).
    repeat split; try discriminate; reflexivity.
  - apply (proj2 (proj2 (load_config_needs_nonempty_values w eq_refl))).
    left. reflexivity.
Defined.

(** ** The entry point *)

Lemma parse_args_cases w :
  fst (parse_args w) = w /\
  (forall ns, argv w = Some ns -> parse_args w = (w, Return ns)) /\
  snd (parse_args w) <> Unfinished.
Proof.
  unfold parse_args. destruct (argv w) as [ns|]; cbn; repeat split;
    try discriminate.
  intros ns' [= ->]. reflexivity.
Qed.

Lemma create_client_cases url key w :
  let r := create_client url key w in
  trace (fst r) = trace w /\
  (passes 1 w -> forall c, connect w url key = inl c ->
   snd r = Return c /\ sigint (fst r) = countdown 1 (sigint w)).
Proof.
  destruct w as [av en co up ut ent eu sg tr]. unfold passes. cbn [sigint connect].
  destruct sg as [[|m]|]; run_py.
  - split; [reflexivity | lia].
  - destruct (co url key) as [c|e]; cbn; split; try reflexivity;
      intros _ c' [= <-]. rewrite Nat.sub_0_r. auto.
  - destruct (co url key) as [c|e]; cbn; split; try reflexivity;
      intros _ c' [= <-]. auto.
Qed.

Lemma print_cases line w :
  let r := print line w in
  (snd r = Raise (Exn KeyboardInterrupt "") /\ trace (fst r) = trace w /\
   sigint w = Some 0)
  \/ (snd r = Return tt /\ trace (fst r) = trace w ++ [EvPrint line] /\
      sigint w <> Some 0).
Proof.
  destruct w as [av en co up ut ent eu sg tr].
  destruct sg as [[|m]|]; run_py; [left | right | right]; repeat split;
    discriminate.
Qed.

(** C6. When SUPABASE_URL or SUPABASE_SERVICE_ROLE_KEY is missing from the
    environment, [main] fails without having done anything: it adds no event,
    so no iteration ran and no insertion was attempted.  With a command line
    that parses and no interrupt, what it raises is the [RuntimeError] of
    [load_config], whose text names the variable that is missing. *)
Theorem missing_configuration_fails_before_the_loop (fuel : nat) (w : World) :
  environ w !! "SUPABASE_URL" = None \/
  environ w !! "SUPABASE_SERVICE_ROLE_KEY" = None ->
  let r := main fuel w in
  new_events w (fst r) = [] /\
  (exists e, snd r = Raise e) /\
  (forall ns, argv w = Some ns -> sigint w = None ->
   r = (w, Raise config_error)) /\
  exn_cls config_error = RuntimeError /\
  (forall name,
     name = "SUPABASE_URL" \/ name = "SUPABASE_SERVICE_ROLE_KEY" ->
     environ w !! name = None ->
     occurs_in name (exn_str config_error) = true).
Proof.
  intros Hmiss r. subst r.
  assert (Hno : forall u k, ~ configured (environ w) u k).
  { intros u k (H1 & H2 & _). destruct Hmiss; congruence. }
  destruct (parse_args_cases w) as (Hpw & Hparse & Hpu).
  destruct (load_config_cases w) as (Htr & _ & Hw & Hcases).
  assert (Hfail : exists e, snd (load_config w) = Raise e).
  { destruct Hcases as [[_ Hr] | (_ & _ & [(u & k & Hc & _) | [_ Hr]])]; eauto.
    destruct (Hno u k Hc). }
  destruct Hfail as (e & He).
  assert (Hmain : main fuel w =
                  match snd (parse_args w) with
                  | Return _ => (fst (load_config w), Raise e)
                  | o => (w, match o with Raise e' => Raise e' | _ => Raise e end)
                  end).
  { unfold main, bind. destruct (parse_args w) as [w0 [ns | e0 |]] eqn:Hp;
      cbn [fst snd] in *; subst; try reflexivity; [|congruence].
    destruct (load_config w) as [w1 [cfg | e1 |]]; cbn [fst snd] in *;
      congruence. }
  rewrite Hmain. split; [|split; [|split; [|split]]].
  - unfold new_events.
    destruct (snd (parse_args w)); cbn [fst]; rewrite ?Htr; apply drop_all.
  - destruct (snd (parse_args w)); cbn [snd]; eauto.
  - intros ns Hns Hsig. rewrite (Hparse ns Hns). cbn [snd].
    rewrite (Hw Hsig).
    destruct Hcases as [[Hnp _] | (_ & _ & [(u & k & Hc & _) | [_ Hr]])].
    + exfalso. apply Hnp. unfold passes. now rewrite Hsig.
    + destruct (Hno u k Hc).
    + congruence.
  - reflexivity.
  - intros name [-> | ->] _; vm_compute; reflexivity.
Qed.

Lemma missing_configuration_fails_before_the_loop_witness :
  let w := sample_world default_namespace accepting_client
             (delete "SUPABASE_SERVICE_ROLE_KEY" sample_environ) None in
  let r := main 20 w in
  new_events w (fst r) = [] /\
  r = (w, Raise config_error) /\
  occurs_in "SUPABASE_SERVICE_ROLE_KEY" (exn_str config_error) = true.
Proof.
  intros w r.
  destruct (missing_configuration_fails_before_the_loop 20 w)
    as (Hnone & _ & Hraise & _ & Hname).
  - right. reflexivity.
  - split; [exact Hnone|]. split.
    + apply (Hraise default_namespace); reflexivity.
    + apply Hname; [right|]; reflexivity.
Defined.

(** ** Interrupts *)

(** An interrupt [m] runtime calls away lands inside [run_writer] when the
    loop is still going by then: the run raises [KeyboardInterrupt]. *)
Lemma run_writer_interrupted fuel client script count interval follow w m :
  str_truthy script = true ->
  always_accepts client ->
  sleep_rejection interval = None ->
  sigint w = Some m ->
  follow = true \/ m < 1 + 6 * Z.to_nat count ->
  m < 1 + 6 * fuel ->
  exists w' d,
    run_writer fuel client script count interval follow w =
      (w', Raise (Exn KeyboardInterrupt "")) /\
    trace w' = trace w ++ d /\
    sigint w' = None.
Proof.
  intros Hs Hc Hi Hsig Hin Hfuel. destruct m as [|m].
  - destruct w as [av en co up ut ent eu sg tr]. cbn [sigint] in Hsig. subst sg.
    eexists; exists []. unfold run_writer. run_py.
    rewrite app_nil_r. auto.
  - destruct (uuid4_passes w) as (w0 & Hu & Htr0 & Hsg0).
    { unfold passes. rewrite Hsig. lia. }
    rewrite Hsig in Hsg0. cbn [countdown] in Hsg0.
    replace (S m - 1) with m in Hsg0 by lia.
    pose proof (Nat.div_mod_eq m 6) as Hdm.
    pose proof (Nat.mod_upper_bound m 6 ltac:(lia)) as Hmod.
    set (q := m / 6) in *.
    destruct (writer_loop_unroll client script interval Hs Hc Hi q
                (fuel - q) count follow (uuid_pool w (uuid_taken w)) 1%Z w0)
      as (rows & w1 & _ & _ & Htr1 & Hsg1 & Hrun).
    { unfold passes. rewrite Hsg0. lia. }
    { destruct Hin as [Hin | Hin]; [now left | right; lia]. }
    rewrite Hsg0 in Hsg1. cbn [countdown] in Hsg1.
    destruct (iteration_interrupted client script interval Hs Hc Hi
                (uuid_pool w (uuid_taken w)) (1 + Z.of_nat q)%Z w1 (m - 6 * q))
      as (w2 & d & Hit & Htr2 & Hsg2); [exact Hsg1 | lia |].
    exists w2. eexists. unfold run_writer.
    rewrite (bind_return_at _ _ _ _ _ Hu).
    assert (Hf : fuel - q = S (fuel - q - 1)) by lia.
    rewrite Hf in Hrun.
    replace fuel with (q + S (fuel - q - 1)) at 1 by lia.
    rewrite Hrun, writer_loop_step.
    + rewrite (bind_raise_at _ _ _ _ _ Hit).
      split; [reflexivity|]. split; [|exact Hsg2].
      rewrite Htr2, Htr1, Htr0, <- app_assoc. reflexivity.
    + destruct Hin as [-> | Hin]; [reflexivity|].
      apply orb_true_iff. right. apply Z.leb_le. lia.
Qed.

(** The loop prints confirmations only, never the stop line. *)
Lemma iter_shape_no_stop_line client script rid interval h sq d o :
  iter_shape client script rid interval h sq d o ->
  ~ In (EvPrint "Log writer stopped.") d.
Proof.
  intros [p Hb Hr | e | p e Hb Hr | p e Hb Hr | p e Hb Hr] Hin;
    cbn in Hin; unfold confirmation in Hin; cbn in Hin;
    repeat (destruct Hin as [Hin | Hin]; [discriminate Hin|]); exact Hin.
Qed.

Lemma run_shape_no_stop_line client script rid interval h sq d o :
  run_shape client script rid interval h sq d o ->
  ~ In (EvPrint "Log writer stopped.") d.
Proof.
  induction 1 as [h sq | h sq | h sq d e Hit | h sq d1 d2 o Hit Hrest IH].
  - intros [].
  - intros [].
  - eapply iter_shape_no_stop_line; exact Hit.
  - intros Hin. apply in_app_or in Hin as [Hin | Hin]; [|exact (IH Hin)].
    eapply iter_shape_no_stop_line; [exact Hit | exact Hin].
Qed.

(** Whenever [main] prints the stop line, it is the last thing it does and it
    then returns normally. *)
Lemma main_stop_line fuel w :
  let r := main fuel w in
  exists d,
    trace (fst r) = trace w ++ d /\
    (In (EvPrint "Log writer stopped.") d ->
     snd r = Return tt /\ last d = Some (EvPrint "Log writer stopped.")).
Proof.
  intros r. subst r. unfold main, bind.
  destruct (parse_args_cases w) as (Hpw & _ & _).
  destruct (parse_args w) as [w0 [ns | e0 |]]; cbn [fst] in Hpw; subst w0;
    try (exists []; rewrite app_nil_r; cbn; split; [reflexivity | tauto]).
  destruct (load_config_cases w) as (Htr1 & _).
  destruct (load_config w) as [w1 [cfg | e1 |]]; cbn [fst] in Htr1;
    try (exists []; rewrite app_nil_r; cbn; split; [assumption | tauto]).
  destruct (create_client_cases (fst cfg) (snd cfg) w1) as (Htr2 & _).
  destruct (create_client (fst cfg) (snd cfg) w1) as [w2 [c | e2 |]];
    cbn [fst] in Htr2;
    try (exists []; rewrite app_nil_r; cbn; split; [congruence | tauto]).
  unfold try_except.
  destruct (run_writer_shape fuel c (ns_script ns) (ns_count ns)
              (ns_interval ns) (ns_follow ns) w2) as (d & Htr3 & Hsh).
  apply run_shape_no_stop_line in Hsh.
  destruct (run_writer fuel c (ns_script ns) (ns_count ns) (ns_interval ns)
              (ns_follow ns) w2) as [w3 [[] | e3 |]]; cbn [fst snd] in *;
    try (exists d; split; [congruence | intros Hin; destruct (Hsh Hin)]).
  destruct (is_KeyboardInterrupt (exn_cls e3));
    [| exists d; cbn [fst snd]; split;
       [congruence | intros Hin; destruct (Hsh Hin)] ].
  destruct (print_cases "Log writer stopped." w3)
    as [(Ho & Htr4 & _) | (Ho & Htr4 & _)];
    destruct (print "Log writer stopped." w3) as [w4 o]; cbn [fst snd] in *;
    subst o.
  - exists d. split; [congruence | intros Hin; destruct (Hsh Hin)].
  - exists (d ++ [EvPrint "Log writer stopped."]).
    split; [rewrite Htr4, Htr3, Htr2, Htr1, <- app_assoc; reflexivity|].
    intros _. split; [reflexivity | apply last_snoc].
Qed.

(** ** Sample runs *)

(** Three runs of the whole program, evaluated. *)
Example main_default_run :
  let r := main 20 quiet_world in
  snd r = Return tt /\
  length (inserted (trace (fst r))) = 20 /\
  length (trace (fst r)) = 60.
Proof. vm_compute. auto. Qed.

Example main_negative_delay :
  let w := sample_world (mkNamespace "demo-script" 5 (-1) false)
                        accepting_client sample_environ None in
  let r := main 5 w in
  snd r = Raise (Exn ValueError "sleep length must be non-negative") /\
  length (inserted (trace (fst r))) = 1.
Proof. vm_compute. auto. Qed.

Example main_store_down :
  let w := sample_world (mkNamespace "demo-script" 5 1 false)
                        flaky_client sample_environ None in
  let r := main 5 w in
  snd r = Raise (ExnFrom RuntimeError "Insert failed: connection refused"
                   (Exn (LibraryError "APIError") "connection refused")) /\
  length (inserted (trace (fst r))) = 3.
Proof. vm_compute. auto. Qed.

(** * Further properties *)

(** ** The insertion wrapper *)

(** X1. [insert_log] makes at most one attempt and never a second one.  When
    the interrupt lands on the call, nothing is sent.  Otherwise exactly the
    given row goes to the table script_logs, once; the call returns when the
    store accepts, raises the wrapping [RuntimeError] when the store raised an
    [Exception], and lets any other exception of the store (an exit, an
    interrupt) through unwrapped. *)
Theorem insert_log_attempts_once (client : Client) (payload : Payload) (w : World) :
  let r := insert_log client payload w in
  let reply := respond client (trace w) "script_logs" payload in
  (sigint w = Some 0 ->
   new_events w (fst r) = [] /\ snd r = Raise (Exn KeyboardInterrupt "")) /\
  (sigint w <> Some 0 ->
   new_events w (fst r) = [EvInsert "script_logs" payload reply] /\
   snd r =
     match reply with
     | None => Return tt
     | Some e =>
         Raise (if is_Exception (exn_cls e)
                then ExnFrom RuntimeError ("Insert failed: " +:+ exn_str e) e
                else e)
     end).
Proof.
  destruct w as [av en co up ut ent eu sg tr].
  destruct sg as [[|m]|]; run_py; unfold new_events; cbn [trace fst snd].
  - split; [intros _ | congruence]. rewrite drop_all. auto.
  - split; [discriminate | intros _].
    destruct (respond client tr "script_logs" payload) as [e|]; cbn;
      [destruct (is_Exception (exn_cls e)); cbn |];
      rewrite drop_app_length; auto.
  - split; [discriminate | intros _].
    destruct (respond client tr "script_logs" payload) as [e|]; cbn;
      [destruct (is_Exception (exn_cls e)); cbn |];
      rewrite drop_app_length; auto.
Qed.

Lemma insert_log_attempts_once_witness :
  let w := sample_world default_namespace flaky_client sample_environ None in
  let row := mkPayload "demo-script" "info" "Heartbeat check"
                       (mkMetadata "run-0" 1 45) in
  let r := insert_log flaky_client row w in
  new_events w (fst r) = [EvInsert "script_logs" row None] /\
  snd r = Return tt.
Proof.
  intros w row.
  apply (proj2 (insert_log_attempts_once flaky_client row w)).
  discriminate.
Defined.

(** ** What a run can add to the trace *)

Lemma printed_app d1 d2 : printed (d1 ++ d2) = printed d1 ++ printed d2.
Proof.
  induction d1 as [|[t p r | l | q] d1 IH]; cbn; rewrite ?IH; reflexivity.
Qed.

Lemma slept_app d1 d2 : slept (d1 ++ d2) = slept d1 ++ slept d2.
Proof.
  induction d1 as [|[t p r | l | q] d1 IH]; cbn; rewrite ?IH; reflexivity.
Qed.

Lemma refused_app d1 d2 : refused (d1 ++ d2) = refused d1 ++ refused d2.
Proof.
  induction d1 as [|[t p [e|] | l | q] d1 IH]; cbn; rewrite ?IH; reflexivity.
Qed.

(** (the only iteration that returns is the complete one) *)
Lemma iter_shape_return client script rid interval h sq d :
  iter_shape client script rid interval h sq d (Return tt) ->
  exists p, built script rid sq p /\ d = iteration_events script interval p.
Proof. intros H. inversion H; subst. eauto. Qed.

Lemma built_writer_event script rid sq interval p reply :
  built script rid sq p ->
  writer_event script interval (EvInsert "script_logs" p reply).
Proof. intros []. cbn. auto. Qed.

Lemma confirmation_writer_event script interval sq :
  (1 <= sq)%Z -> writer_event script interval (EvPrint (confirmation sq script)).
Proof. intros H. exists sq. split; [exact H | reflexivity]. Qed.

Lemma iter_shape_events client script rid interval h sq d o :
  (1 <= sq)%Z ->
  iter_shape client script rid interval h sq d o ->
  Forall (writer_event script interval) d.
Proof.
  intros Hsq [p Hb Hr | e | p e Hb Hr | p e Hb Hr | p e Hb Hr];
    unfold iteration_events; rewrite ?(built_sequence _ _ _ _ Hb);
    repeat (apply Forall_cons; split);
    try apply Forall_nil;
    eauto using built_writer_event, confirmation_writer_event.
  reflexivity.
Qed.

Lemma run_shape_events client script rid interval h sq d o :
  run_shape client script rid interval h sq d o ->
  (1 <= sq)%Z ->
  Forall (writer_event script interval) d.
Proof.
  induction 1 as [h sq | h sq | h sq d e Hit | h sq d1 d2 o Hit Hrest IH];
    intros Hsq.
  - apply Forall_nil. exact I.
  - apply Forall_nil. exact I.
  - eapply iter_shape_events; eassumption.
  - apply Forall_app. split.
    + eapply iter_shape_events; eassumption.
    + apply IH. lia.
Qed.

(** X2. Whatever the world does and however the run ends, everything
    [run_writer] adds to the trace is one of three things: an insertion into
    the table script_logs of a row that carries the given script name, a level
    and a message of the fixed lists and a duration between 45 and 1400; a
    confirmation line "Inserted log k for <script>" with k at least 1; or a
    sleep of exactly the given interval. *)
Theorem run_writer_adds_only_writer_events
    (fuel : nat) (client : Client) (script : string) (count : Z)
    (interval : Q) (follow : bool) (w : World) :
  Forall (writer_event script interval)
         (new_events w (fst (run_writer fuel client script count interval follow w))).
Proof.
  destruct (run_writer_shape fuel client script count interval follow w)
    as (d & Htr & Hsh).
  rewrite (new_events_app _ _ _ Htr).
  eapply run_shape_events; [exact Hsh | lia].
Qed.

Lemma iter_shape_counts client script rid interval h sq d o :
  iter_shape client script rid interval h sq d o ->
  (printed d = [] \/ printed d = [confirmation sq script]) /\
  Forall (fun q => q = interval) (slept d) /\
  length (slept d) <= length (printed d) /\
  length (printed d) + length (refused d) <= length (inserted d) /\
  length (inserted d) <= 1 /\
  (o = Return tt ->
   printed d = [confirmation sq script] /\ length (slept d) = 1 /\
   length (inserted d) = 1 /\ refused d = []).
Proof.
  intros [p Hb Hr | e | p e Hb Hr | p e Hb Hr | p e Hb Hr];
    unfold iteration_events; rewrite ?(built_sequence _ _ _ _ Hb); cbn;
    repeat split; auto; try lia; try discriminate;
    repeat constructor.
Qed.

Lemma run_shape_counts client script rid interval h sq d o :
  run_shape client script rid interval h sq d o ->
  forall a : nat, sq = Z.of_nat a ->
    printed d =
      map (fun k => confirmation (Z.of_nat k) script) (seq a (length (printed d))) /\
    Forall (fun q => q = interval) (slept d) /\
    length (slept d) <= length (printed d) /\
    length (printed d) + length (refused d) <= length (inserted d) /\
    length (inserted d) <= S (length (slept d)) /\
    length (refused d) <= 1.
Proof.
  induction 1 as [h sq | h sq | h sq d e Hit | h sq d1 d2 o Hit Hrest IH];
    intros a Ha.
  - cbn. repeat split; auto.
  - cbn. repeat split; auto.
  - destruct (iter_shape_counts _ _ _ _ _ _ _ _ Hit)
      as (Hp & Hs & H1 & H2 & H3 & _).
    subst sq.
    split; [destruct Hp as [-> | ->]; reflexivity|].
    repeat split; auto; lia.
  - destruct (iter_shape_counts _ _ _ _ _ _ _ _ Hit)
      as (_ & Hs & _ & _ & _ & Hret).
    destruct (Hret eq_refl) as (Hp1 & Hs1 & Hi1 & Hr1).
    destruct (IH (S a) ltac:(lia)) as (Hp2 & Hs2 & G1 & G2 & G3 & G4).
    rewrite printed_app, slept_app, refused_app, inserted_app, !length_app.
    rewrite Hp1, Hs1, Hi1, Hr1. cbn [length app Nat.add seq map].
    subst sq.
    split; [f_equal; exact Hp2|].
    split; [apply Forall_app; split; assumption|].
    repeat split; lia.
Qed.

(** X3. Whatever the world does and however the run ends: the lines printed
    are the confirmations for the sequence numbers 1, 2, ... in order, none
    missing and none twice; every sleep lasts the given interval; the three
    effects keep in step: never more sleeps than confirmations, never more
    confirmations than accepted insertions, never more than one insertion
    ahead of the sleeps, and at most one refused insertion in a whole run;
    and a refused insertion is the last event of the run, so it is never
    confirmed and never followed by another attempt. *)
Theorem run_writer_keeps_effects_in_step
    (fuel : nat) (client : Client) (script : string) (count : Z)
    (interval : Q) (follow : bool) (w : World) :
  let d := new_events w (fst (run_writer fuel client script count interval follow w)) in
  printed d =
    map (fun k => "Inserted log " +:+ str_int (Z.of_nat k) +:+ " for " +:+ script)
        (seq 1 (length (printed d))) /\
  Forall (fun secs => secs = Finite interval) (slept d) /\
  length (slept d) <= length (printed d) /\
  length (printed d) + length (refused d) <= length (inserted d) /\
  length (inserted d) <= S (length (slept d)) /\
  length (refused d) <= 1 /\
  (forall k table row e,
     d !! k = Some (EvInsert table row (Some e)) -> length d = S k).
Proof.
  intros d. subst d.
  destruct (run_writer_shape fuel client script count interval follow w)
    as (d & Htr & Hsh).
  rewrite (new_events_app _ _ _ Htr).
  destruct (run_shape_counts _ _ _ _ _ _ _ _ Hsh 1 eq_refl)
    as (Hp & Hs & H1 & H2 & H3 & H4).
  repeat (split; [assumption|]).
  intros k table row e Hk.
  destruct (run_shape_refusal _ _ _ _ _ _ _ _ Hsh _ _ _ _ Hk) as (Hlen & _).
  exact Hlen.
Qed.

Lemma run_writer_keeps_effects_in_step_witness :
  let w := sample_world default_namespace flaky_client sample_environ None in
  let d := new_events w (fst (run_writer 10 flaky_client "demo-script" 5 1 false w)) in
  d !! 6 = Some (EvInsert "script_logs"
                   (mkPayload "demo-script" "info" "Completed batch successfully"
                              (mkMetadata "run-0" 3 104))
                   (Some (Exn (LibraryError "APIError") "connection refused"))) /\
  length d = 7.
Proof.
  intros w d.
  assert (Hk : d !! 6 =
               Some (EvInsert "script_logs"
                       (mkPayload "demo-script" "info" "Completed batch successfully"
                                  (mkMetadata "run-0" 3 104))
                       (Some (Exn (LibraryError "APIError") "connection refused"))))
    by (vm_compute; reflexivity).
  split; [exact Hk|].
  destruct (run_writer_keeps_effects_in_step 10 flaky_client "demo-script" 5 1
              false w) as (_ & _ & _ & _ & _ & _ & Hlast).
  exact (Hlast _ _ _ _ Hk).
Defined.

(** ** Bounded and following runs *)

Lemma writer_loop_bounded fuel client script count interval rid :
  forall sq w,
    let r := writer_loop fuel client script count interval false rid sq w in
    exists d,
      trace (fst r) = trace w ++ d /\
      length (inserted d) <= Z.to_nat (count - sq + 1) /\
      (Z.to_nat (count - sq + 1) <= fuel -> snd r <> Unfinished).
Proof.
  induction fuel as [|fuel IH]; intros sq w r; subst r.
  - cbn [writer_loop orb]. destruct (sq <=? count)%Z eqn:Hc;
      exists []; cbn [fst snd ret inserted length]; rewrite app_nil_r;
      (split; [reflexivity|]); (split; [lia|]).
    + apply Z.leb_le in Hc. lia.
    + discriminate.
  - destruct (sq <=? count)%Z eqn:Hc.
    + rewrite writer_loop_step by (rewrite Hc; reflexivity). unfold bind.
      apply Z.leb_le in Hc.
      destruct (iteration_shape client script interval rid sq w)
        as (d1 & Htr1 & Hsh1).
      pose proof (iter_shape_counts _ _ _ _ _ _ _ _ Hsh1)
        as (_ & _ & _ & _ & Hone & _).
      destruct (iteration client script interval rid sq w) as [w1 [[] | e |]];
        cbn [fst snd] in *.
      * destruct (IH (sq + 1)%Z w1) as (d2 & Htr2 & Hlen2 & Hfin2).
        exists (d1 ++ d2). rewrite Htr2, Htr1, <- app_assoc.
        split; [reflexivity|]. rewrite inserted_app, length_app.
        split; [lia|]. intros Hf. apply Hfin2. lia.
      * exists d1. split; [exact Htr1|]. split; [lia | discriminate].
      * inversion Hsh1.
    + cbn [writer_loop orb]. rewrite Hc. exists [].
      cbn [fst snd ret inserted length]. rewrite app_nil_r.
      split; [reflexivity|]. split; [lia | discriminate].
Qed.

(** X4. A bounded run never attempts more than [count] insertions, whatever
    the store answers and whenever an interrupt lands; and it always comes to
    an end within [count] iterations: on that much fuel the outcome is a
    return or an exception, never a loop still going. *)
Theorem bounded_run_stops_within_count
    (fuel : nat) (client : Client) (script : string) (count : Z)
    (interval : Q) (w : World) :
  let r := run_writer fuel client script count interval false w in
  length (inserted (new_events w (fst r))) <= Z.to_nat count /\
  (Z.to_nat count <= fuel -> snd r <> Unfinished).
Proof.
  intros r. subst r. unfold run_writer, bind.
  destruct (uuid4_str w) as [w0 [rid | e |]] eqn:Hu.
  - assert (Htr0 : trace w0 = trace w).
    { revert Hu. destruct w as [av en co up ut ent eu sg tr].
      destruct sg as [[|m]|]; run_py; intros [= <- _]; reflexivity. }
    destruct (writer_loop_bounded fuel client script count interval rid 1%Z w0)
      as (d & Htr & Hlen & Hfin).
    rewrite Htr0 in Htr. rewrite (new_events_app _ _ _ Htr).
    replace (count - 1 + 1)%Z with count in * by lia. auto.
  - assert (Htr0 : trace w0 = trace w).
    { revert Hu. destruct w as [av en co up ut ent eu sg tr].
      destruct sg as [[|m]|]; run_py; intros [= <- _]; reflexivity. }
    cbn [fst snd]. unfold new_events. rewrite Htr0, drop_all.
    split; [cbn; lia | discriminate].
  - exfalso. revert Hu. destruct w as [av en co up ut ent eu sg tr].
    destruct sg as [[|m]|]; run_py; discriminate.
Qed.

Lemma bounded_run_stops_within_count_witness :
  let w := sample_world default_namespace flaky_client sample_environ (Some 40) in
  let r := run_writer 5 flaky_client "demo-script" 5 1 false w in
  length (inserted (new_events w (fst r))) <= Z.to_nat 5 /\
  snd r <> Unfinished.
Proof.
  intros w.
  destruct (bounded_run_stops_within_count 5 flaky_client "demo-script" 5 1 w)
    as [Hlen Hfin].
  split; [exact Hlen | apply Hfin; vm_compute; lia].
Defined.

Lemma writer_loop_follow_ignores_count fuel client script interval rid
    count count' :
  forall sq w,
    writer_loop fuel client script count interval true rid sq w =
    writer_loop fuel client script count' interval true rid sq w.
Proof.
  induction fuel as [|fuel IH]; intros sq w; [reflexivity|].
  rewrite !writer_loop_step by reflexivity.
  apply bind_ext_at. intros _ w1. apply IH.
Qed.

Lemma writer_loop_follow_goes_on fuel client script count interval rid :
  forall sq w,
    snd (writer_loop fuel client script count interval true rid sq w) <> Return tt.
Proof.
  induction fuel as [|fuel IH]; intros sq w; [discriminate|].
  rewrite writer_loop_step by reflexivity. unfold bind.
  destruct (iteration client script interval rid sq w) as [w1 [[] | e |]];
    [apply IH | discriminate..].
Qed.

(** X5. In follow mode [count] plays no part, the run is the same for every
    [count]; and the run never returns normally: it ends with an exception or
    not at all. *)
Theorem follow_mode_ignores_count_and_never_returns
    (fuel : nat) (client : Client) (script : string) (count count' : Z)
    (interval : Q) (w : World) :
  run_writer fuel client script count interval true w =
  run_writer fuel client script count' interval true w /\
  snd (run_writer fuel client script count interval true w) <> Return tt.
Proof.
  unfold run_writer. split.
  - apply bind_ext_at. intros rid w0. apply writer_loop_follow_ignores_count.
  - unfold bind. destruct (uuid4_str w) as [w0 [rid | e |]];
      [apply writer_loop_follow_goes_on | discriminate..].
Qed.

(** ** An interval that [time.sleep] refuses *)

Lemma iteration_refused_delay client script interval rid sq w e :
  str_truthy script = true ->
  always_accepts client ->
  sleep_rejection interval = Some e ->
  sigint w = None ->
  exists p w',
    iteration client script interval rid sq w = (w', Raise e) /\
    built script rid sq p /\
    trace w' = trace w ++
      [EvInsert "script_logs" p None; EvPrint (confirmation sq script)].
Proof.
  intros Hs Hacc Hi Hsig.
  destruct w as [av en co up ut ent eu sg tr]. cbn [sigint] in Hsig. subst sg.
  destruct script as [|a s]; [discriminate|].
  run_py. rewrite Hi, Hacc. cbn.
  eexists. eexists. split; [reflexivity|].
  split; [apply drawn_built|]. cbn. rewrite <- app_assoc. reflexivity.
Qed.

(** What [time.sleep] refuses, and with which error. *)
Lemma sleep_rejection_negative q :
  (MIN_SLEEP <= q)%Q -> (q < 0)%Q ->
  sleep_rejection (Finite q) =
    Some (Exn ValueError "sleep length must be non-negative").
Proof.
  intros Hmin Hneg. unfold sleep_rejection.
  assert (Hmax : (q <= MAX_SLEEP)%Q).
  { apply Qle_trans with 0%Q; [apply Qlt_le_weak; exact Hneg | discriminate]. }
  apply Qle_bool_iff in Hmin, Hmax. rewrite Hmin, Hmax. cbn.
  destruct (Qle_bool 0 q) eqn:H0; [|reflexivity].
  apply Qle_bool_iff in H0. destruct (Qlt_not_le _ _ Hneg H0).
Qed.

Lemma sleep_rejection_too_long q :
  (MAX_SLEEP < q)%Q ->
  sleep_rejection (Finite q) =
    Some (Exn OverflowError "timestamp too large to convert to C _PyTime_t").
Proof.
  intros Hlong. unfold sleep_rejection.
  destruct (Qle_bool q MAX_SLEEP) eqn:Hmax.
  - apply Qle_bool_iff in Hmax. destruct (Qlt_not_le _ _ Hlong Hmax).
  - rewrite andb_false_r. reflexivity.
Qed.



(** ** The entry point, end to end *)

Lemma load_config_calm w url key :
  sigint w = None ->
  configured (environ w) url key ->
  load_config w = (w, Return (url, key)).
Proof.
  intros Hsig (H1 & H2 & H3 & H4).
  destruct w as [av en co up ut ent eu sg tr]. cbn [sigint environ] in *.
  subst sg. run_py. rewrite H1, H2.
  destruct url; [congruence|]. destruct key; [congruence|]. reflexivity.
Qed.

Lemma create_client_calm url key w :
  sigint w = None ->
  create_client url key w =
    (w, match connect w url key with
        | inl c => Return c
        | inr e => Raise e
        end).
Proof.
  intros Hsig. destruct w as [av en co up ut ent eu sg tr].
  cbn [sigint] in Hsig. subst sg. run_py. destruct (co url key); reflexivity.
Qed.

Lemma create_client_outcome url key w :
  snd (create_client url key w) <> Unfinished.
Proof.
  destruct w as [av en co up ut ent eu sg tr].
  destruct sg as [[|m]|]; run_py; try discriminate;
    destruct (co url key); discriminate.
Qed.

Lemma load_config_outcome w : snd (load_config w) <> Unfinished.
Proof.
  destruct (load_config_cases w)
    as (_ & _ & _ & [[_ Hr] | (_ & _ & [(u & k & _ & Hr) | [_ Hr]])]);
    rewrite Hr; discriminate.
Qed.

(** With the settings in place and nothing pending, [main] is the guarded
    run of the writer on the client the store handed out. *)
Lemma main_calm_setup fuel w ns url key client :
  argv w = Some ns ->
  configured (environ w) url key ->
  connect w url key = inl client ->
  sigint w = None ->
  main fuel w =
  try_except
    (run_writer fuel client (ns_script ns) (ns_count ns) (ns_interval ns)
                (ns_follow ns))
    is_KeyboardInterrupt (fun _ => print "Log writer stopped.") w.
Proof.
  intros Hargv Hcfg Hconn Hsig. unfold main.
  destruct (parse_args_cases w) as (_ & Hparse & _).
  rewrite (bind_return_at _ _ _ _ _ (Hparse ns Hargv)).
  rewrite (bind_return_at _ _ _ _ _ (load_config_calm w url key Hsig Hcfg)).
  cbn [fst snd].
  assert (Hcreate : create_client url key w = (w, Return client)).
  { rewrite (create_client_calm url key w Hsig), Hconn. reflexivity. }
  rewrite (bind_return_at _ _ _ _ _ Hcreate). reflexivity.
Qed.

(** X7. The guard of [main] only covers the writer.  An interrupt that lands
    earlier, while the settings are read or the client is created, is not
    caught: [main] raises [KeyboardInterrupt], has done nothing and does not
    print the stop line. *)
Theorem interrupt_before_the_loop_is_not_caught
    (fuel : nat) (w : World) (ns : Namespace) (url key : string) (n : nat) :
  argv w = Some ns ->
  configured (environ w) url key ->
  sigint w = Some n ->
  n < 3 ->
  let r := main fuel w in
  snd r = Raise (Exn KeyboardInterrupt "") /\
  new_events w (fst r) = [].
Proof.
  intros Hargv (H1 & H2 & H3 & H4) Hsig Hn r. subst r.
  destruct w as [av en co up ut ent eu sg tr].
  cbn [argv environ sigint] in *. subst av sg.
  destruct url; [congruence|]. destruct key; [congruence|].
  unfold new_events.
  destruct n as [|[|[|n]]]; [| | | lia]; unfold main; run_py;
    rewrite ?H1, ?H2; cbn; rewrite drop_all; auto.
Qed.

Lemma interrupt_before_the_loop_is_not_caught_witness :
  let w := sample_world default_namespace accepting_client sample_environ (Some 2) in
  let r := main 20 w in
  snd r = Raise (Exn KeyboardInterrupt "") /\
  new_events w (fst r) = [].
Proof.
  intros w.
  apply (interrupt_before_the_loop_is_not_caught 20 w default_namespace
           "http://localhost:54321" "service-role" 2).
  - reflexivity.
  - repeat split; try discriminate; reflexivity.
  - reflexivity.
  - lia.
Defined.



(** X10. [main] creates the client from exactly the two values of the
    environment, and an error of that step goes to the caller as it is,
    before the writer has started: nothing is inserted, printed or slept. *)
Theorem client_creation_failure_propagates
    (fuel : nat) (w : World) (ns : Namespace) (url key : string) (e : exn) :
  argv w = Some ns ->
  configured (environ w) url key ->
  connect w url key = inr e ->
  sigint w = None ->
  main fuel w = (w, Raise e) /\
  new_events w (fst (main fuel w)) = [].
Proof.
  intros Hargv Hcfg Hconn Hsig.
  assert (Hmain : main fuel w = (w, Raise e)).
  { unfold main.
    destruct (parse_args_cases w) as (_ & Hparse & _).
    rewrite (bind_return_at _ _ _ _ _ (Hparse ns Hargv)).
    rewrite (bind_return_at _ _ _ _ _ (load_config_calm w url key Hsig Hcfg)).
    cbn [fst snd]. apply bind_raise_at.
    rewrite (create_client_calm url key w Hsig), Hconn. reflexivity. }
  split; [exact Hmain|]. rewrite Hmain. unfold new_events. apply drop_all.
Qed.

Lemma client_creation_failure_propagates_witness :
  main 20 offline_world = (offline_world, Raise unreachable_store) /\
  new_events offline_world (fst (main 20 offline_world)) = [].
Proof.
  apply (client_creation_failure_propagates 20 offline_world default_namespace
           "http://localhost:54321" "service-role" unreachable_store).
  - reflexivity.
  - repeat split; try discriminate; reflexivity.
  - reflexivity.
  - reflexivity.
Defined.

(** Every run of [main]: either it never reached the writer and raised,
    with nothing done, or it is a run of the writer, followed by the stop
    line when the writer was interrupted. *)
Lemma main_cases fuel w :
  let r := main fuel w in
  (trace (fst r) = trace w /\ exists e, snd r = Raise e)
  \/ exists ns client rid d o,
      argv w = Some ns /\
      run_shape client (ns_script ns) rid (ns_interval ns) (trace w) 1 d o /\
      ( (trace (fst r) = trace w ++ d /\ snd r = o)
        \/ (exists e, o = Raise e /\ is_KeyboardInterrupt (exn_cls e) = true /\
             ( (trace (fst r) = trace w ++ d /\
                snd r = Raise (Exn KeyboardInterrupt ""))
               \/ (trace (fst r) = trace w ++ d ++ [EvPrint "Log writer stopped."] /\
                   snd r = Return tt) )) ).
Proof.
  intros r. subst r. unfold main, bind.
  destruct (parse_args_cases w) as (Hpw & Hparse & Hpu).
  destruct (parse_args w) as [w0 [ns | e0 |]] eqn:Hp; cbn [fst snd] in *;
    subst w0; [| left; eauto | congruence].
  assert (Hargv : argv w = Some ns).
  { revert Hp. unfold parse_args. destruct (argv w); intros [= ->]; reflexivity. }
  destruct (load_config_cases w) as (Htr1 & _).
  pose proof (load_config_outcome w) as Hlu.
  destruct (load_config w) as [w1 [cfg | e1 |]]; cbn [fst snd] in *;
    [| left; eauto | congruence].
  destruct (create_client_cases (fst cfg) (snd cfg) w1) as (Htr2 & _).
  pose proof (create_client_outcome (fst cfg) (snd cfg) w1) as Hcu.
  destruct (create_client (fst cfg) (snd cfg) w1) as [w2 [c | e2 |]];
    cbn [fst snd] in *;
    [| left; split; [congruence | eauto] | congruence].
  assert (Htr02 : trace w2 = trace w) by congruence.
  right. unfold try_except.
  destruct (run_writer_shape fuel c (ns_script ns) (ns_count ns)
              (ns_interval ns) (ns_follow ns) w2) as (d & Htr3 & Hsh).
  rewrite Htr02 in Htr3, Hsh.
  exists ns, c, (uuid_pool w2 (uuid_taken w2)), d.
  destruct (run_writer fuel c (ns_script ns) (ns_count ns) (ns_interval ns)
              (ns_follow ns) w2) as [w3 [[] | e3 |]]; cbn [fst snd] in *.
  - exists (Return tt). auto.
  - exists (Raise e3). split; [exact Hargv|]. split; [exact Hsh|].
    destruct (is_KeyboardInterrupt (exn_cls e3)) eqn:Hki; cbn [fst snd];
      [right | left; auto].
    exists e3. split; [reflexivity|]. split; [exact Hki|].
    destruct (print_cases "Log writer stopped." w3)
      as [(Ho & Htr4 & _) | (Ho & Htr4 & _)]; rewrite Ho, Htr4, Htr3;
      [left | right; rewrite <- app_assoc]; auto.
  - exists Unfinished. auto.
Qed.

(** X9. [main] does not swallow an insertion failure.  Whenever, in a run of
    the whole program, the store raised an [Exception] on an attempt, that
    attempt is the last thing the program did (no stop line follows) and
    [main] ends with the [RuntimeError] "Insert failed: ..." that carries the
    store's error as its cause. *)
Theorem main_reports_insertion_failure
    (fuel : nat) (w : World) (k : nat) (table : string) (row : Payload)
    (e : exn) :
  let r := main fuel w in
  new_events w (fst r) !! k = Some (EvInsert table row (Some e)) ->
  is_Exception (exn_cls e) = true ->
  snd r = Raise (ExnFrom RuntimeError ("Insert failed: " +:+ exn_str e) e) /\
  length (new_events w (fst r)) = S k.
Proof.
  intros r Hk He. subst r.
  destruct (main_cases fuel w)
    as [[Htr _] | (ns & c & rid & d & o & _ & Hsh & Hcases)].
  { exfalso. unfold new_events in Hk. rewrite Htr, drop_all in Hk.
    discriminate. }
  assert (Hin : forall d', new_events w (fst (main fuel w)) = d ++ d' ->
                  (forall j x, d' !! j = Some x -> x = EvPrint "Log writer stopped.") ->
                  length d = S k /\ o = Raise (insert_error e)).
  { intros d' Hd Hd'. rewrite Hd in Hk.
    apply lookup_app_Some in Hk as [Hk | [_ Hk]].
    - destruct (run_shape_refusal _ _ _ _ _ _ _ _ Hsh _ _ _ _ Hk) as (? & ? & _).
      auto.
    - apply Hd' in Hk. discriminate. }
  rewrite insert_error_wrap in Hin by exact He.
  destruct Hcases as [[Htr Ho] | (e' & -> & Hki & [[Htr Ho] | [Htr Ho]])].
  - destruct (Hin [] ltac:(rewrite app_nil_r; now apply new_events_app)
                  ltac:(intros j x; rewrite lookup_nil; discriminate))
      as [Hlen ->].
    rewrite (new_events_app _ _ _ Htr). auto.
  - destruct (Hin [] ltac:(rewrite app_nil_r; now apply new_events_app)
                  ltac:(intros j x; rewrite lookup_nil; discriminate))
      as [_ [= ->]].
    discriminate.
  - destruct (Hin [EvPrint "Log writer stopped."]
                  ltac:(now apply new_events_app)
                  ltac:(intros [|j] x; cbn;
                        [ intros [= <-]; reflexivity
                        | first [discriminate | rewrite lookup_nil; discriminate] ]))
      as [_ [= ->]].
    discriminate.
Qed.

Lemma main_reports_insertion_failure_witness :
  let w := sample_world (mkNamespace "demo-script" 5 1 false)
                        flaky_client sample_environ None in
  let e := Exn (LibraryError "APIError") "connection refused" in
  let r := main 5 w in
  snd r = Raise (ExnFrom RuntimeError ("Insert failed: " +:+ exn_str e) e) /\
  length (new_events w (fst r)) = 7.
Proof.
  intros w e.
  apply (main_reports_insertion_failure 5 w 6 "script_logs"
           (mkPayload "demo-script" "info" "Completed batch successfully"
                      (mkMetadata "run-0" 3 104)) e).
  - vm_compute. reflexivity.
  - reflexivity.
Defined.

(** ** Interrupts and failures told apart *)

Lemma sleep_rejection_not_interrupt secs e :
  sleep_rejection secs = Some e -> is_KeyboardInterrupt (exn_cls e) = false.
Proof.
  unfold sleep_rejection. destruct secs as [q | neg |];
    repeat match goal with
           | |- context [if ?b then _ else _] => destruct b
           end;
    intros [= <-]; reflexivity.
Qed.

(** While an interrupt is pending, an iteration either has it delivered, and
    then raises [KeyboardInterrupt], or leaves it pending and raises nothing
    of that class. *)
Lemma iteration_pending client script interval rid sq w m :
  never_interrupts client ->
  sigint w = Some m ->
  let r := iteration client script interval rid sq w in
  (sigint (fst r) = None /\ snd r = Raise (Exn KeyboardInterrupt ""))
  \/ ((exists m', sigint (fst r) = Some m') /\
      forall e, snd r = Raise e -> is_KeyboardInterrupt (exn_cls e) = false).
Proof.
  intros Hni Hsig.
  destruct w as [av en co up ut ent eu sg tr]. cbn [sigint] in Hsig. subst sg.
  destruct script as [|a s].
  { right. run_py. split; [eauto | intros e [= <-]; reflexivity]. }
  destruct (sleep_rejection interval) as [err|] eqn:Hi;
  destruct m as [|[|[|[|[|[|m]]]]]]; run_py; rewrite ?Hi; cbn;
  try split_reply;
  first
    [ left; split; reflexivity
    | right; split;
      [ eexists; reflexivity
      | intros e' He';
        first
          [ discriminate He'
          | injection He' as <-;
            first
              [ reflexivity
              | eapply sleep_rejection_not_interrupt; eassumption
              | eapply Hni; eassumption ] ] ] ].
Qed.

Lemma writer_loop_pending fuel client script count interval follow rid :
  never_interrupts client ->
  forall sq w m,
    sigint w = Some m ->
    let r := writer_loop fuel client script count interval follow rid sq w in
    (sigint (fst r) = None /\ snd r = Raise (Exn KeyboardInterrupt ""))
    \/ ((exists m', sigint (fst r) = Some m') /\
        forall e, snd r = Raise e -> is_KeyboardInterrupt (exn_cls e) = false).
Proof.
  intros Hni. induction fuel as [|fuel IH]; intros sq w m Hsig r; subst r.
  - right. cbn [writer_loop].
    destruct (follow || (sq <=? count)%Z); cbn; split; eauto; discriminate.
  - destruct (follow || (sq <=? count)%Z) eqn:Hc.
    + rewrite writer_loop_step by exact Hc. unfold bind.
      destruct (iteration_pending client script interval rid sq w m Hni Hsig)
        as [[Hnone Hki] | [[m' Hm'] Hother]];
        destruct (iteration client script interval rid sq w) as [w1 [[] | e |]];
        cbn [fst snd] in *; try discriminate.
      * left. auto.
      * apply (IH _ _ _ Hm').
      * right. eauto.
      * right. split; [eauto | discriminate].
    + right. cbn [writer_loop]. rewrite Hc. cbn. split; eauto; discriminate.
Qed.

Lemma run_writer_pending fuel client script count interval follow w m :
  never_interrupts client ->
  sigint w = Some m ->
  let r := run_writer fuel client script count interval follow w in
  (sigint (fst r) = None /\ snd r = Raise (Exn KeyboardInterrupt ""))
  \/ ((exists m', sigint (fst r) = Some m') /\
      forall e, snd r = Raise e -> is_KeyboardInterrupt (exn_cls e) = false).
Proof.
  intros Hni Hsig r. subst r. destruct m as [|m].
  - left. destruct w as [av en co up ut ent eu sg tr].
    cbn [sigint] in Hsig. subst sg. unfold run_writer. run_py. auto.
  - destruct (uuid4_passes w) as (w0 & Hu & _ & Hsg0).
    { unfold passes. rewrite Hsig. lia. }
    rewrite Hsig in Hsg0. cbn [countdown] in Hsg0.
    unfold run_writer. rewrite (bind_return_at _ _ _ _ _ Hu).
    exact (writer_loop_pending fuel client script count interval follow _ Hni
             1%Z w0 _ Hsg0).
Qed.

Lemma create_client_sigint url key w :
  passes 1 w ->
  sigint (fst (create_client url key w)) = countdown 1 (sigint w).
Proof.
  destruct w as [av en co up ut ent eu sg tr]. unfold passes. cbn [sigint].
  destruct sg as [[|m]|]; [lia | intros _ ..]; run_py;
    destruct (co url key); cbn; rewrite ?Nat.sub_0_r; reflexivity.
Qed.

(** An interrupt that the setup leaves pending and that is delivered before
    [main] is over was delivered inside the guarded run: [main] stops with
    the stop line. *)
Lemma main_interrupt_delivered fuel w n :
  sigint w = Some n ->
  3 <= n ->
  (forall url key client,
     connect w url key = inl client -> never_interrupts client) ->
  sigint (fst (main fuel w)) = None ->
  snd (main fuel w) = Return tt /\
  last (new_events w (fst (main fuel w))) = Some (EvPrint "Log writer stopped.").
Proof.
  intros Hsig Hn Hstore. unfold main, bind.
  destruct (parse_args_cases w) as (Hpw & _ & _).
  destruct (parse_args w) as [w0 [ns | e0 |]]; cbn [fst] in Hpw; subst w0;
    cbn [fst snd]; try congruence.
  destruct (load_config_cases w) as (Htr1 & Hco1 & _ & Hcases).
  destruct Hcases as [[Hnp _] | (_ & Hsg1 & _)].
  { exfalso. apply Hnp. unfold passes. rewrite Hsig. lia. }
  rewrite Hsig in Hsg1. cbn [countdown] in Hsg1.
  destruct (load_config w) as [w1 [cfg | e1 |]]; cbn [fst snd] in *;
    try congruence.
  destruct (create_client_cases (fst cfg) (snd cfg) w1) as (Htr2 & _).
  pose proof (create_client_sigint (fst cfg) (snd cfg) w1
                ltac:(unfold passes; rewrite Hsg1; lia)) as Hsg2.
  rewrite Hsg1 in Hsg2. cbn [countdown] in Hsg2.
  destruct (create_client (fst cfg) (snd cfg) w1) as [w2 [c | e2 |]] eqn:Hcreate;
    cbn [fst snd] in *; try congruence.
  assert (Hc : never_interrupts c).
  { apply (Hstore (fst cfg) (snd cfg)). rewrite <- Hco1.
    revert Hcreate. clear.
    destruct w1 as [av en co up ut ent eu sg tr].
    destruct sg as [[|m]|]; run_py; try discriminate;
      destruct (co (fst cfg) (snd cfg)); cbn; congruence. }
  unfold try_except.
  destruct (run_writer_shape fuel c (ns_script ns) (ns_count ns)
              (ns_interval ns) (ns_follow ns) w2) as (d & Htr3 & _).
  destruct (run_writer_pending fuel c (ns_script ns) (ns_count ns)
              (ns_interval ns) (ns_follow ns) w2 _ Hc Hsg2)
    as [[Hnone Hki] | [[m' Hm'] Hother]];
    destruct (run_writer fuel c (ns_script ns) (ns_count ns) (ns_interval ns)
                (ns_follow ns) w2) as [w3 [[] | e3 |]];
    cbn [fst snd] in *; try congruence.
  - injection Hki as ->. cbn [exn_cls is_KeyboardInterrupt].
    destruct (print_cases "Log writer stopped." w3)
      as [(_ & _ & H0) | (Ho & Htr4 & _)]; [congruence|].
    intros _. split; [exact Ho|].
    rewrite (new_events_app w _ (d ++ [EvPrint "Log writer stopped."])).
    + apply last_snoc.
    + rewrite Htr4, Htr3, Htr2, Htr1, <- app_assoc. reflexivity.
  - rewrite (Hother e3 eq_refl). cbn [fst]. congruence.
Qed.

(** A refused insertion ends a run of [main] with the wrapping error. *)
Lemma main_refusal_raises fuel w k table row e :
  new_events w (fst (main fuel w)) !! k = Some (EvInsert table row (Some e)) ->
  is_Exception (exn_cls e) = true ->
  snd (main fuel w) =
    Raise (ExnFrom RuntimeError ("Insert failed: " +:+ exn_str e) e).
Proof.
  intros Hk He.
  destruct (main_cases fuel w)
    as [[Htr _] | (ns & c & rid & d & o & _ & Hsh & Hcases)].
  { exfalso. unfold new_events in Hk. rewrite Htr, drop_all in Hk.
    discriminate. }
  assert (Hin : forall d', new_events w (fst (main fuel w)) = d ++ d' ->
                  d' = [] \/ d' = [EvPrint "Log writer stopped."] ->
                  o = Raise (insert_error e)).
  { intros d' Hd Hd'. rewrite Hd in Hk.
    apply lookup_app_Some in Hk as [Hk | [_ Hk]].
    - destruct (run_shape_refusal _ _ _ _ _ _ _ _ Hsh _ _ _ _ Hk) as (_ & ? & _).
      assumption.
    - exfalso. destruct Hd' as [-> | ->].
      + rewrite lookup_nil in Hk. discriminate.
      + destruct (k - length d) as [|j]; cbn in Hk;
          first [discriminate | rewrite lookup_nil in Hk; discriminate]. }
  rewrite insert_error_wrap in Hin by exact He.
  destruct Hcases as [[Htr Ho] | (e' & -> & Hki & [[Htr Ho] | [Htr Ho]])].
  - rewrite Ho. apply (Hin []); [|now left].
    rewrite app_nil_r. now apply new_events_app.
  - assert (Heq : Raise (A:=unit) e' =
                  Raise (ExnFrom RuntimeError ("Insert failed: " +:+ exn_str e) e)).
    { apply (Hin []); [|now left].
      rewrite app_nil_r. now apply new_events_app. }
    injection Heq as ->. discriminate.
  - assert (Heq : Raise (A:=unit) e' =
                  Raise (ExnFrom RuntimeError ("Insert failed: " +:+ exn_str e) e)).
    { apply (Hin [EvPrint "Log writer stopped."]); [|now right].
      now apply new_events_app. }
    injection Heq as ->. discriminate.
Qed.



(** Two more runs of the whole program, evaluated: an interval too long for
    [time.sleep], and one that is not a number. *)
Example main_overlong_delay :
  let w := sample_world (mkNamespace "demo-script" 5 10000000000 false)
                        accepting_client sample_environ None in
  let r := main 5 w in
  snd r = Raise (Exn OverflowError "timestamp too large to convert to C _PyTime_t") /\
  length (inserted (trace (fst r))) = 1 /\
  slept (trace (fst r)) = [].
Proof. vm_compute. auto. Qed.

Example main_nan_delay :
  let w := sample_world (mkNamespace "demo-script" 5 NaN false)
                        accepting_client sample_environ None in
  let r := main 5 w in
  snd r = Raise (Exn ValueError "Invalid value NaN (not a number)") /\
  length (inserted (trace (fst r))) = 1.
Proof. vm_compute. auto. Qed.
